(** * Cash-flow projection of the power-washing business plan (app.py)

    A shallow embedding of the two core functions of [app.py],
    [project_cash_flow] and [monte_carlo_cash_flow], and the properties of
    the ledger and of the Monte-Carlo summary they return.

    Modelling conventions.
    - Python numbers (the ints and floats that flow through the two
      functions) are exact rationals [Q]; rounding, overflow and NaN of the
      binary64 format are not represented.  Equalities between computed
      amounts are Leibniz equalities where the code evaluates the very same
      expression, and [==] (equality of rationals) otherwise.
    - Python ints that count or index ([horizon_years], [simulations], the
      loop variable [m]) are [Z]; [//] and [%] by 12 are [Z.div] and
      [Z.modulo], which round like Python's.
    - Exceptions are values of [exn]; fallible code lives in [result].
    - [np.random.normal] reads the process-wide generator.  The generator is
      an explicit state that records the calls served, and a realization of
      the draws is a table of standard normal variates, one row per call. *)

From Stdlib Require Import Strings.String.
From Stdlib Require Import ZArith QArith Qround Qpower List Lia Lqa Bool.
From Stdlib Require Import Sorting.Sorted.
Import ListNotations.

(** ** Exceptions and the two effects of the program *)

Inductive exn : Type :=
| IndexError          (* list index out of range *)
| ValueError          (* negative dimension, negative scale *)
| UndefinedStatistic. (* reduction of an empty sample: NaN or an error in numpy *)

Inductive result (A : Type) : Type :=
| Ok (a : A)
| Raise (e : exn).

Arguments Ok {A} a.
Arguments Raise {A} e.

Class Monad (m : Type -> Type) : Type := {
  ret : forall {A}, A -> m A;
  bind : forall {A B}, m A -> (A -> m B) -> m B
}.

Notation "x <- c1 ;; c2" := (bind c1 (fun x => c2))
  (at level 61, c1 at next level, right associativity).

#[export] Instance result_monad : Monad result := {
  ret := fun A a => Ok a;
  bind := fun A B c k => match c with Ok a => k a | Raise e => Raise e end
}.

(** One call of [np.random.normal(loc, scale, size)]. *)
Record NormalCall : Type := mkCall { loc : Q; scale : Q; size : Z }.

(** The state of numpy's global generator: the calls it has served. *)
Record RandomState : Type := mkState { served : list NormalCall }.

(** A realization of the random draws: [z k i] is the standard normal
    variate behind draw [i] of the [k]-th call. *)
Definition Realization : Type := nat -> nat -> Q.

Definition Sim (A : Type) : Type := RandomState -> result (A * RandomState).

#[export] Instance Sim_monad : Monad Sim := {
  ret := fun A a st => Ok (a, st);
  bind := fun A B c k st =>
            match c st with
            | Ok (a, st') => k a st'
            | Raise e => Raise e
            end
}.

Definition lift {A} (r : result A) : Sim A :=
  fun st => match r with Ok a => Ok (a, st) | Raise e => Raise e end.

(** ** Python built-ins used by the source *)

(** [l[i]]: a negative index counts from the end; out of range raises. *)
Definition getitem {A} (l : list A) (i : Z) : result A :=
  let j := if (i <? 0)%Z then (i + Z.of_nat (length l))%Z else i in
  if (j <? 0)%Z then Raise IndexError
  else match nth_error l (Z.to_nat j) with
       | Some x => Ok x
       | None => Raise IndexError
       end.

(** [range(n)]: 0, 1, ..., n-1, empty when [n <= 0]. *)
Definition range (n : Z) : list Z := map Z.of_nat (seq 0 (Z.to_nat n)).

(** [out = []; for x in xs: out.append(body(x))]; an exception in the body
    leaves the loop. *)
Fixpoint for_each {A B} (xs : list A) (body : A -> result B) : result (list B) :=
  match xs with
  | [] => ret []
  | x :: xs' =>
      y <- body x ;;
      ys <- for_each xs' body ;;
      ret (y :: ys)
  end.

(** [for x in xs: acc = body(x, acc)] with the generator threaded through. *)
Fixpoint for_loop {A T} (xs : list A) (body : A -> T -> Sim T) (acc : T) : Sim T :=
  match xs with
  | [] => ret acc
  | x :: xs' =>
      acc' <- body x acc ;;
      for_loop xs' body acc'
  end.

(** ** The deterministic projector (app.py, lines 11-48) *)

Local Open Scope Q_scope.

(** The five-element list appended to [data] in each iteration. *)
Record DataRow : Type := mkDataRow {
  data_month : Z;
  data_year : Z;
  data_revenue : Q;
  data_costs : Q;
  data_profit : Q
}.

(** A row of the returned frame: the five columns and "Cumulative Profit". *)
Record LedgerRow : Type := mkLedgerRow {
  Month : Z;
  Year : Z;
  Revenue : Q;
  Costs : Q;
  Profit : Q;
  Cumulative_Profit : Q
}.

(** [Series.cumsum]: out[0] = in[0], out[i] = out[i-1] + in[i]. *)
Fixpoint cumsum_from (acc : Q) (l : list Q) : list Q :=
  match l with
  | [] => []
  | x :: t => let acc' := acc + x in acc' :: cumsum_from acc' t
  end.

Definition cumsum (l : list Q) : list Q :=
  match l with
  | [] => []
  | x :: t => x :: cumsum_from x t
  end.

(** [pd.DataFrame(data, columns=[...])] followed by the assignment of the
    "Cumulative Profit" column. *)
Definition with_column (data : list DataRow) (cumulative : list Q) : list LedgerRow :=
  map (fun dc : DataRow * Q =>
         let (d, c) := dc in
         mkLedgerRow (data_month d) (data_year d) (data_revenue d)
                     (data_costs d) (data_profit d) c)
      (combine data cumulative).

Definition project_cash_flow
    (monthly_costs jobs_per_week avg_revenue_per_job : Q)
    (seasonality_factors : list Q)
    (annual_growth_rate : Q)
    (horizon_years : Z) : result (list LedgerRow) :=
  let months := (horizon_years * 12)%Z in
  data <- for_each (range months) (fun m =>
      let month_index := (m mod 12)%Z in
      let year_index := (m / 12)%Z in
      let growth_multiplier := (1 + annual_growth_rate) ^ year_index in
      season <- getitem seasonality_factors month_index ;;
      let monthly_revenue :=
        jobs_per_week * 4 * avg_revenue_per_job * season * growth_multiplier in
      let monthly_profit := monthly_revenue - monthly_costs in
      ret (mkDataRow (m + 1) (year_index + 1)
                     monthly_revenue monthly_costs monthly_profit)) ;;
  ret (with_column data (cumsum (map data_profit data))).

(** ** numpy, as far as the simulator uses it *)

(** A two-dimensional array indexed [row, column] is kept as the list of its
    columns, so [a[:, m]] is the [m]-th element and a reduction along
    [axis=0] reduces each column. *)
Definition Matrix : Type := list (list Q).

(** [np.zeros((rows, cols))]; negative dimensions are not allowed. *)
Definition np_zeros (rows cols : Z) : result Matrix :=
  if ((rows <? 0) || (cols <? 0))%Z then Raise ValueError
  else ret (repeat (repeat 0 (Z.to_nat rows)) (Z.to_nat cols)).

(** [np.random.normal(loc, scale, size)]: [size] draws [loc + scale * z],
    where the variates [z] are those of the realization for this call. *)
Definition np_random_normal (z : Realization) (loc scale : Q) (size : Z) : Sim (list Q) :=
  fun st =>
    if negb (Qle_bool 0 scale) then Raise ValueError
    else if (size <? 0)%Z then Raise ValueError
    else
      let k := length (served st) in
      Ok (map (fun i => loc + scale * z k i) (seq 0 (Z.to_nat size)),
          mkState (served st ++ [mkCall loc scale size])).

(** [np.maximum(a, b)] on scalars. *)
Definition np_maximum (a b : Q) : Q := if Qle_bool a b then b else a.

(** [a[:, m] = col]. *)
Fixpoint list_update {A} (l : list A) (i : nat) (x : A) : option (list A) :=
  match l, i with
  | [], _ => None
  | _ :: t, O => Some (x :: t)
  | y :: t, S i' => option_map (cons y) (list_update t i' x)
  end.

Definition set_column (a : Matrix) (m : Z) (col : list Q) : result Matrix :=
  if (m <? 0)%Z then Raise IndexError
  else match list_update a (Z.to_nat m) col with
       | Some a' => Ok a'
       | None => Raise IndexError
       end.

(** [np.arange(a, b)]. *)
Definition np_arange (a b : Z) : list Z := map (fun i => (a + i)%Z) (range (b - a)).

(** The order statistics numpy reads come from the sorted sample. *)
Fixpoint insert_sorted (x : Q) (l : list Q) : list Q :=
  match l with
  | [] => [x]
  | y :: t => if Qle_bool x y then x :: y :: t else y :: insert_sorted x t
  end.

Definition np_sort (sample : list Q) : list Q := fold_right insert_sorted [] sample.

(** [a + (b - a) * t], numpy's interpolation between two order statistics. *)
Definition lerp (a b t : Q) : Q := a + (b - a) * t.

(** The value numpy reads off the sorted sample [arr] of [n] elements at the
    virtual index [v] (method "linear"): [v] is split into the order
    statistic below it and the fraction [gamma] towards the next one; an index
    at or above [n - 1] reads the last order statistic on both sides, one
    below 0 the first, and the fraction then has no effect. *)
Definition interpolate (arr : list Q) (n : Z) (v : Q) : Q :=
  let previous := Qfloor v in
  let gamma := v - inject_Z previous in
  let previous_index :=
    if Qle_bool (inject_Z (n - 1)) v then (n - 1)%Z
    else if negb (Qle_bool 0 v) then 0%Z
    else previous in
  let next_index :=
    if Qle_bool (inject_Z (n - 1)) v then (n - 1)%Z
    else if negb (Qle_bool 0 v) then 0%Z
    else (previous + 1)%Z in
  lerp (nth (Z.to_nat previous_index) arr 0) (nth (Z.to_nat next_index) arr 0) gamma.

(** [np.percentile(sample, q)]: the sorted sample read at the virtual index
    [(n - 1) * (q / 100)].  An empty sample has no percentile. *)
Definition np_percentile (sample : list Q) (q : Q) : result Q :=
  match sample with
  | [] => Raise UndefinedStatistic
  | _ :: _ =>
      let n := Z.of_nat (length sample) in
      let virtual_index := inject_Z (n - 1) * (q / 100) in
      ret (interpolate (np_sort sample) n virtual_index)
  end.

(** [np.median(sample)]: the middle order statistic, or the mean of the two
    middle ones when the sample has an even number of elements.  The median
    of an empty sample is NaN in numpy. *)
Definition np_median (sample : list Q) : result Q :=
  match sample with
  | [] => Raise UndefinedStatistic
  | _ :: _ =>
      let arr := np_sort sample in
      let n := Z.of_nat (length sample) in
      let index := (n / 2)%Z in
      if (n mod 2 =? 1)%Z then ret (nth (Z.to_nat index) arr 0)
      else ret ((nth (Z.to_nat (index - 1)) arr 0 + nth (Z.to_nat index) arr 0) / 2)
  end.

(** ** The Monte-Carlo simulator (app.py, lines 51-85) *)

Record SummaryRow : Type := mkSummaryRow {
  Summary_Month : Z;
  Median_Profit : Q;
  Lower_5pct : Q;
  Upper_95pct : Q
}.

Definition default_simulations : Z := 2000.

(** [pd.DataFrame({...})] of four columns of equal length. *)
Definition summary_frame (month : list Z) (median lower upper : list Q) : list SummaryRow :=
  map (fun r : Z * Q * Q * Q =>
         let '(m, md, lo, up) := r in mkSummaryRow m md lo up)
      (combine (combine (combine month median) lower) upper).

Section MonteCarlo.

Variable z : Realization.
Variables monthly_costs jobs_per_week avg_revenue_per_job : Q.
Variable seasonality_factors : list Q.
Variable annual_growth_rate : Q.
Variable horizon_years : Z.
Variable simulations : Z.

(** One iteration of the loop at lines 63-76. *)
Definition simulate_month (m : Z) (results : Matrix) : Sim Matrix :=
  let year_index := (m / 12)%Z in
  let month_index := (m mod 12)%Z in
  season <- lift (getitem seasonality_factors month_index) ;;
  let growth := (1 + annual_growth_rate) ^ year_index in
  let mean_rev := jobs_per_week * 4 * avg_revenue_per_job * season * growth in
  let std_rev := avg_revenue_per_job * 0.15 in
  rev_samples <- np_random_normal z mean_rev std_rev simulations ;;
  let rev_samples := map (np_maximum 0) rev_samples in
  lift (set_column results m (map (fun r => r - monthly_costs) rev_samples)).

(** Lines 60-76: the matrix of profit samples. *)
Definition simulate_profits : Sim Matrix :=
  let months := (horizon_years * 12)%Z in
  results <- lift (np_zeros simulations months) ;;
  for_loop (range months) simulate_month results.

(** Lines 78-83: the per-month statistics. *)
Definition summarize (results : Matrix) : result (list SummaryRow) :=
  let months := (horizon_years * 12)%Z in
  median <- for_each results np_median ;;
  lower <- for_each results (fun col => np_percentile col 5) ;;
  upper <- for_each results (fun col => np_percentile col 95) ;;
  ret (summary_frame (np_arange 1 (months + 1)) median lower upper).

Definition monte_carlo_cash_flow : Sim (list SummaryRow) :=
  results <- simulate_profits ;;
  lift (summarize results).

End MonteCarlo.

(** The generator before any call. *)
Definition fresh : RandomState := mkState [].

(** ** The Streamlit page (app.py, lines 92-215)

    The script reads its widgets, adds up the costs, runs the projector,
    shows the first 24 rows and, when the checkbox is ticked, runs the
    simulator with the default number of simulations.  Titles, charts and
    the download button only display values computed here. *)

(** A widget with integer bounds and default (arguments [label],
    [min_value], [max_value], [value]) and one with float arguments. *)
Record IntWidget : Type := mkIntWidget {
  int_label : string;
  int_min : Z;
  int_max : Z;
  int_value : Z
}.

Record FloatWidget : Type := mkFloatWidget {
  float_label : string;
  float_min : Q;
  float_max : Q;
  float_value : Q
}.

(** What the user has entered, by widget label; a widget that was never
    touched has no entry and yields its default. *)
Record Session : Type := mkSession {
  entered_int : string -> option Z;
  entered_float : string -> option Q;
  ticked : string -> option bool
}.

Definition read_int (s : Session) (w : IntWidget) : Z :=
  match entered_int s (int_label w) with
  | Some v => v
  | None => int_value w
  end.

Definition read_float (s : Session) (w : FloatWidget) : Q :=
  match entered_float s (float_label w) with
  | Some v => v
  | None => float_value w
  end.

(** [st.sidebar.checkbox(label)], unticked by default. *)
Definition checkbox (s : Session) (label : string) : bool :=
  match ticked s label with
  | Some b => b
  | None => false
  end.

(** The widgets of the sidebar, lines 99-121. *)
Definition equipment_input : IntWidget := mkIntWidget "Equipment" 500 10000 2000.
Definition marketing_startup_input : IntWidget := mkIntWidget "Startup Marketing" 0 5000 400.
Definition legal_input : IntWidget := mkIntWidget "Legal/LLC/Insurance Setup" 0 3000 800.
Definition misc_input : IntWidget := mkIntWidget "Misc" 0 2000 200.
Definition fuel_input : IntWidget := mkIntWidget "Fuel" 0 1000 120.
Definition chemicals_input : IntWidget := mkIntWidget "Chemicals" 0 1000 80.
Definition insurance_input : IntWidget := mkIntWidget "Insurance" 0 1000 90.
Definition marketing_monthly_input : IntWidget := mkIntWidget "Marketing (ads)" 0 3000 300.
Definition software_input : IntWidget := mkIntWidget "Software/Website" 0 2000 50.
Definition maintenance_input : IntWidget := mkIntWidget "Maintenance" 0 1000 40.
Definition jobs_per_week_input : IntWidget := mkIntWidget "Jobs per Week" 1 100 10.
Definition avg_revenue_input : IntWidget := mkIntWidget "Avg Revenue per Job ($)" 50 2000 180.
Definition annual_growth_slider : FloatWidget :=
  mkFloatWidget "Annual Growth Rate (%)" 0.0 0.50 0.07.
Definition horizon_years_slider : IntWidget :=
  mkIntWidget "Projection Horizon (Years)" 1 10 5.

(** Lines 125-132: one slider per month name. *)
Definition months : list string :=
  ["Jan"; "Feb"; "Mar"; "Apr"; "May"; "Jun";
   "Jul"; "Aug"; "Sep"; "Oct"; "Nov"; "Dec"]%string.

Definition month_slider (m : string) : FloatWidget := mkFloatWidget m 0.5 1.5 1.0.

Definition int_widgets : list IntWidget :=
  [equipment_input; marketing_startup_input; legal_input; misc_input;
   fuel_input; chemicals_input; insurance_input; marketing_monthly_input;
   software_input; maintenance_input; jobs_per_week_input; avg_revenue_input;
   horizon_years_slider].

Definition float_widgets : list FloatWidget :=
  annual_growth_slider :: map month_slider months.

(** Streamlit hands the script only values within a widget's bounds. *)
Definition within_bounds (s : Session) : Prop :=
  Forall (fun w => (int_min w <= read_int s w <= int_max w)%Z) int_widgets /\
  Forall (fun w => float_min w <= read_float s w <= float_max w) float_widgets.

(** [df.head(n)]. *)
Definition head {A} (n : nat) (df : list A) : list A := firstn n df.

(** What one run of the script computes. *)
Record Page : Type := mkPage {
  page_startup_costs : Z;
  page_monthly_costs : Z;
  page_df : list LedgerRow;
  page_table : list LedgerRow;
  page_summary : option (list SummaryRow);
  page_summary_table : option (list SummaryRow)
}.

Definition page (s : Session) (z : Realization) : Sim Page :=
  let equipment := read_int s equipment_input in
  let marketing_startup := read_int s marketing_startup_input in
  let legal := read_int s legal_input in
  let misc := read_int s misc_input in
  let startup_costs := (equipment + marketing_startup + legal + misc)%Z in
  let fuel := read_int s fuel_input in
  let chemicals := read_int s chemicals_input in
  let insurance := read_int s insurance_input in
  let marketing_monthly := read_int s marketing_monthly_input in
  let software := read_int s software_input in
  let maintenance := read_int s maintenance_input in
  let monthly_costs :=
    (fuel + chemicals + insurance + marketing_monthly + software + maintenance)%Z in
  let jobs_per_week := read_int s jobs_per_week_input in
  let avg_revenue := read_int s avg_revenue_input in
  let annual_growth := read_float s annual_growth_slider in
  let horizon_years := read_int s horizon_years_slider in
  let seasonality_factors := map (fun m => read_float s (month_slider m)) months in
  let use_monte_carlo := checkbox s "Enable Monte-Carlo Forecasting" in
  df <- lift (project_cash_flow (inject_Z monthly_costs) (inject_Z jobs_per_week)
                                (inject_Z avg_revenue) seasonality_factors
                                annual_growth horizon_years) ;;
  if use_monte_carlo then
    summary <- monte_carlo_cash_flow z (inject_Z monthly_costs) (inject_Z jobs_per_week)
                                     (inject_Z avg_revenue) seasonality_factors
                                     annual_growth horizon_years default_simulations ;;
    ret (mkPage startup_costs monthly_costs df (head 24 df)
                (Some summary) (Some (head 24 summary)))
  else
    ret (mkPage startup_costs monthly_costs df (head 24 df) None None).

(** The session of a user who has not touched any widget. *)
Definition untouched : Session :=
  mkSession (fun _ => None) (fun _ => None) (fun _ => None).

(** ** Closed forms used by the proofs *)


(** The value of [monthly_revenue] in iteration [m] (lines 23-32), once the
    season has been read. *)
Definition revenue_at (jobs_per_week avg_revenue_per_job : Q)
    (seasonality_factors : list Q) (annual_growth_rate : Q) (m : Z) : Q :=
  jobs_per_week * 4 * avg_revenue_per_job
  * nth (Z.to_nat (m mod 12)) seasonality_factors 0
  * (1 + annual_growth_rate) ^ (m / 12).

(** The row appended to [data] in iteration [m]. *)
Definition data_row_at (monthly_costs jobs_per_week avg_revenue_per_job : Q)
    (seasonality_factors : list Q) (annual_growth_rate : Q) (m : Z) : DataRow :=
  let revenue :=
    revenue_at jobs_per_week avg_revenue_per_job seasonality_factors
               annual_growth_rate m in
  mkDataRow (m + 1) (m / 12 + 1) revenue monthly_costs (revenue - monthly_costs).

Definition profits_upto (monthly_costs jobs_per_week avg_revenue_per_job : Q)
    (seasonality_factors : list Q) (annual_growth_rate : Q)
    (horizon_years : Z) : list Q :=
  map data_profit
      (map (data_row_at monthly_costs jobs_per_week avg_revenue_per_job
                        seasonality_factors annual_growth_rate)
           (range (horizon_years * 12))).

(** The ledger a successful call returns. *)
Definition ledger_of (monthly_costs jobs_per_week avg_revenue_per_job : Q)
    (seasonality_factors : list Q) (annual_growth_rate : Q)
    (horizon_years : Z) : list LedgerRow :=
  with_column
    (map (data_row_at monthly_costs jobs_per_week avg_revenue_per_job
                      seasonality_factors annual_growth_rate)
         (range (horizon_years * 12)))
    (cumsum (profits_upto monthly_costs jobs_per_week avg_revenue_per_job
                          seasonality_factors annual_growth_rate horizon_years)).

(** The call of [np.random.normal] made for month [m]. *)
Definition sample_call (jobs_per_week avg_revenue_per_job : Q)
    (seasonality_factors : list Q) (annual_growth_rate : Q)
    (simulations : Z) (m : Z) : NormalCall :=
  mkCall (revenue_at jobs_per_week avg_revenue_per_job seasonality_factors
                     annual_growth_rate m)
         (avg_revenue_per_job * 0.15) simulations.

(** The column written for month [m] when its call is the [k]-th one. *)
Definition profit_column (z : Realization)
    (monthly_costs jobs_per_week avg_revenue_per_job : Q)
    (seasonality_factors : list Q) (annual_growth_rate : Q)
    (simulations : Z) (k : nat) (m : Z) : list Q :=
  let call :=
    sample_call jobs_per_week avg_revenue_per_job seasonality_factors
                annual_growth_rate simulations m in
  map (fun r => r - monthly_costs)
      (map (np_maximum 0)
           (map (fun i => loc call + scale call * z k i)
                (seq 0 (Z.to_nat simulations)))).

(** What holds after [k] iterations of the loop of the simulator, started
    with the generator in state [st0] on a matrix of [cols] columns. *)
Definition after_months (z : Realization)
    (monthly_costs jobs_per_week avg_revenue_per_job : Q)
    (seasonality_factors : list Q) (annual_growth_rate : Q)
    (simulations : Z) (st0 : RandomState) (cols : nat)
    (k : nat) (results : Matrix) (st : RandomState) : Prop :=
  length results = cols /\
  served st =
    served st0 ++
    map (sample_call jobs_per_week avg_revenue_per_job seasonality_factors
                     annual_growth_rate simulations)
        (map Z.of_nat (seq 0 k)) /\
  (forall i, (i < k)%nat ->
     nth_error results i =
     Some (profit_column z monthly_costs jobs_per_week avg_revenue_per_job
                         seasonality_factors annual_growth_rate simulations
                         (length (served st0) + i)%nat (Z.of_nat i))) /\
  (forall i, (i < k)%nat ->
     (Z.to_nat (Z.of_nat i mod 12) < length seasonality_factors)%nat) /\
  ((0 < k)%nat -> 0 <= avg_revenue_per_job * 0.15).

(** A sorted sample: order statistics do not decrease with their rank. *)
Definition ascending (l : list Q) : Prop :=
  forall i j, (i <= j < length l)%nat -> nth i l 0 <= nth j l 0.

(** Realizations used in the examples: call [k] draws the variates
    [-2 - k, -1 - k, -k, ...]; the second one draws [-30, -10, 10, ...], so
    that its first draws fall below zero when the mean revenue is small. *)
Definition example_draws : Realization :=
  fun k i => inject_Z (Z.of_nat i) - 2 - inject_Z (Z.of_nat k).


(** The values the script passes to the two functions, by session. *)
Definition sidebar_startup_costs (s : Session) : Z :=
  (read_int s equipment_input + read_int s marketing_startup_input
   + read_int s legal_input + read_int s misc_input)%Z.

Definition sidebar_monthly_costs (s : Session) : Z :=
  (read_int s fuel_input + read_int s chemicals_input + read_int s insurance_input
   + read_int s marketing_monthly_input + read_int s software_input
   + read_int s maintenance_input)%Z.

Definition sidebar_seasonality_factors (s : Session) : list Q :=
  map (fun m => read_float s (month_slider m)) months.

Definition sidebar_projection (s : Session) : result (list LedgerRow) :=
  project_cash_flow (inject_Z (sidebar_monthly_costs s))
                    (inject_Z (read_int s jobs_per_week_input))
                    (inject_Z (read_int s avg_revenue_input))
                    (sidebar_seasonality_factors s)
                    (read_float s annual_growth_slider)
                    (read_int s horizon_years_slider).

Definition sidebar_simulation (s : Session) (z : Realization) : Sim (list SummaryRow) :=
  monte_carlo_cash_flow z (inject_Z (sidebar_monthly_costs s))
                        (inject_Z (read_int s jobs_per_week_input))
                        (inject_Z (read_int s avg_revenue_input))
                        (sidebar_seasonality_factors s)
                        (read_float s annual_growth_slider)
                        (read_int s horizon_years_slider)
                        default_simulations.

(** A session in which the user has set 20 jobs a week, a horizon of two
    years and a July factor of 1.5, and has ticked the Monte-Carlo box. *)
Definition example_session : Session :=
  mkSession
    (fun label =>
       if String.eqb label "Jobs per Week" then Some 20%Z
       else if String.eqb label "Projection Horizon (Years)" then Some 2%Z
       else None)
    (fun label => if String.eqb label "Jul" then Some 1.5 else None)
    (fun label => Some true).

(** A realization whose variates stay within [-1, 1]. *)
Definition example_bounded_draws : Realization :=
  fun k i => if Nat.even (k + i) then 1 else - (1).

(** * Properties *)

(** ** Loops and indexing *)

Lemma getitem_nth A (l : list A) (i : Z) (d : A) :
  (0 <= i)%Z -> (Z.to_nat i < length l)%nat ->
  getitem l i = Ok (nth (Z.to_nat i) l d).
Proof.
  intros Hi Hlt. unfold getitem.
  destruct (Z.ltb_spec i 0) as [Hneg | _]; [lia |].
  destruct (Z.ltb_spec i 0) as [Hneg | _]; [lia |].
  rewrite (nth_error_nth' l d Hlt). reflexivity.
Qed.

Lemma getitem_out_of_range A (l : list A) (i : Z) :
  (0 <= i)%Z -> (length l <= Z.to_nat i)%nat ->
  getitem l i = Raise IndexError.
Proof.
  intros Hi Hge. unfold getitem.
  destruct (Z.ltb_spec i 0) as [Hneg | _]; [lia |].
  destruct (Z.ltb_spec i 0) as [Hneg | _]; [lia |].
  apply nth_error_None in Hge. rewrite Hge. reflexivity.
Qed.


Lemma range_length (n : Z) : length (range n) = Z.to_nat n.
Proof. unfold range. rewrite length_map, length_seq. reflexivity. Qed.

Lemma range_In (n m : Z) : In m (range n) <-> (0 <= m < n)%Z.
Proof.
  unfold range. rewrite in_map_iff. split.
  - intros [k [<- Hk]]. apply in_seq in Hk. lia.
  - intros H. exists (Z.to_nat m). split; [lia | apply in_seq; lia].
Qed.

Lemma range_nth_error (n : Z) (k : nat) :
  (k < Z.to_nat n)%nat -> nth_error (range n) k = Some (Z.of_nat k).
Proof.
  intros H. unfold range.
  rewrite nth_error_map, nth_error_nth' with (d := O) by (rewrite length_seq; exact H).
  rewrite seq_nth by exact H. reflexivity.
Qed.

Lemma for_each_ok A B (f : A -> B) (body : A -> result B) (xs : list A) :
  (forall x, In x xs -> body x = Ok (f x)) ->
  for_each xs body = Ok (map f xs).
Proof.
  induction xs as [| x xs IH]; intros H; simpl.
  - reflexivity.
  - rewrite (H x) by (left; reflexivity).
    rewrite IH by (intros y Hy; apply H; right; exact Hy).
    reflexivity.
Qed.

Lemma for_each_inv A B (body : A -> result B) (xs : list A) (ys : list B) :
  for_each xs body = Ok ys -> Forall2 (fun x y => body x = Ok y) xs ys.
Proof.
  revert ys. induction xs as [| x xs IH]; intros ys H; simpl in H.
  - injection H as <-. constructor.
  - destruct (body x) as [y |] eqn:Hx; [| discriminate].
    destruct (for_each xs body) as [ys' |] eqn:Hxs; [| discriminate].
    injection H as <-. constructor; [exact Hx | apply IH; reflexivity].
Qed.



Lemma for_each_inv_map A B (f : A -> B) (body : A -> result B) (xs : list A) (ys : list B) :
  for_each xs body = Ok ys ->
  (forall x y, In x xs -> body x = Ok y -> y = f x) ->
  ys = map f xs.
Proof.
  revert ys. induction xs as [| x xs IH]; intros ys H Hf; simpl in H.
  - injection H as <-. reflexivity.
  - destruct (body x) as [y |] eqn:Hx; [| discriminate].
    destruct (for_each xs body) as [ys' |] eqn:Hxs; [| discriminate].
    injection H as <-. simpl. f_equal.
    + apply Hf; [left; reflexivity | exact Hx].
    + apply IH; [reflexivity |]. intros x' y' Hin. apply Hf. right. exact Hin.
Qed.

Lemma getitem_inv A (l : list A) (i : Z) (x d : A) :
  (0 <= i)%Z -> getitem l i = Ok x ->
  (Z.to_nat i < length l)%nat /\ x = nth (Z.to_nat i) l d.
Proof.
  intros Hi H.
  destruct (Nat.lt_ge_cases (Z.to_nat i) (length l)) as [Hlt | Hge].
  - rewrite (getitem_nth _ l i d Hi Hlt) in H. injection H as <-. split; [exact Hlt | reflexivity].
  - rewrite (getitem_out_of_range _ l i Hi Hge) in H. discriminate.
Qed.

(** ** The ledger in closed form *)

Lemma cumsum_from_length (l : list Q) (acc : Q) : length (cumsum_from acc l) = length l.
Proof. revert acc. induction l as [| x t IH]; intros acc; simpl; [| rewrite IH]; reflexivity. Qed.

Lemma cumsum_length (l : list Q) : length (cumsum l) = length l.
Proof. destruct l; simpl; [| rewrite cumsum_from_length]; reflexivity. Qed.

Lemma with_column_length (data : list DataRow) (cs : list Q) :
  length cs = length data -> length (with_column data cs) = length data.
Proof.
  intros H. unfold with_column. rewrite length_map, length_combine, H. apply Nat.min_id.
Qed.

Lemma with_column_nth_error (data : list DataRow) (cs : list Q) (k : nat) (d : DataRow) :
  length cs = length data ->
  nth_error data k = Some d ->
  nth_error (with_column data cs) k =
  Some (mkLedgerRow (data_month d) (data_year d) (data_revenue d)
                    (data_costs d) (data_profit d) (nth k cs 0)).
Proof.
  revert cs k. induction data as [| d0 data IH]; intros cs k Hlen Hk.
  - destruct k; discriminate.
  - destruct cs as [| c cs]; [discriminate |].
    destruct k as [| k]; simpl in *.
    + injection Hk as <-. reflexivity.
    + apply IH; [lia | exact Hk].
Qed.

Section Projector.

Variables monthly_costs jobs_per_week avg_revenue_per_job : Q.
Variable seasonality_factors : list Q.
Variable annual_growth_rate : Q.

Local Abbreviation revenue :=
  (revenue_at jobs_per_week avg_revenue_per_job seasonality_factors annual_growth_rate).

Local Abbreviation data_row :=
  (data_row_at monthly_costs jobs_per_week avg_revenue_per_job
               seasonality_factors annual_growth_rate).

Local Abbreviation profits :=
  (profits_upto monthly_costs jobs_per_week avg_revenue_per_job
                seasonality_factors annual_growth_rate).

Local Abbreviation the_ledger :=
  (ledger_of monthly_costs jobs_per_week avg_revenue_per_job
             seasonality_factors annual_growth_rate).

Lemma month_index_bounds (m : Z) : (0 <= m mod 12 < 12)%Z.
Proof. apply Z.mod_pos_bound. lia. Qed.

Lemma project_cash_flow_total (horizon_years : Z) :
  (horizon_years <= 0)%Z \/ (12 <= length seasonality_factors)%nat ->
  project_cash_flow monthly_costs jobs_per_week avg_revenue_per_job
                    seasonality_factors annual_growth_rate horizon_years
  = Ok (the_ledger horizon_years).
Proof.
  intros H. unfold project_cash_flow.
  rewrite for_each_ok with (f := data_row); [reflexivity |].
  intros m Hm. apply range_In in Hm.
  destruct H as [H | H]; [lia |].
  pose proof (month_index_bounds m) as Hb.
  rewrite getitem_nth with (d := 0) by lia.
  reflexivity.
Qed.

Lemma project_cash_flow_inv (horizon_years : Z) (ledger : list LedgerRow) :
  project_cash_flow monthly_costs jobs_per_week avg_revenue_per_job
                    seasonality_factors annual_growth_rate horizon_years
  = Ok ledger ->
  ledger = the_ledger horizon_years.
Proof.
  unfold project_cash_flow. intros H.
  match type of H with
  | bind (for_each ?xs ?body) _ = _ => destruct (for_each xs body) as [data |] eqn:Hdata
  end; [| discriminate].
  apply for_each_inv_map with (f := data_row) in Hdata.
  - simpl in H. injection H as <-. subst data. reflexivity.
  - intros m y _. pose proof (month_index_bounds m) as Hb.
    destruct (getitem seasonality_factors (m mod 12)) as [season |] eqn:Hs; [| discriminate].
    apply getitem_inv with (d := 0) in Hs; [| lia].
    destruct Hs as [_ ->]. simpl. intros Hy. injection Hy as <-. reflexivity.
Qed.

Lemma ledger_of_length (horizon_years : Z) :
  length (the_ledger horizon_years) = Z.to_nat (horizon_years * 12).
Proof.
  unfold ledger_of, profits_upto.
  rewrite with_column_length; rewrite ?cumsum_length, ?length_map, range_length; reflexivity.
Qed.

Lemma ledger_of_nth_error (horizon_years : Z) (k : nat) :
  (k < Z.to_nat (horizon_years * 12))%nat ->
  nth_error (the_ledger horizon_years) k =
  Some (mkLedgerRow (Z.of_nat k + 1) (Z.of_nat k / 12 + 1)
                    (revenue (Z.of_nat k)) monthly_costs
                    (revenue (Z.of_nat k) - monthly_costs)
                    (nth k (cumsum (profits horizon_years)) 0)).
Proof.
  intros Hk. unfold ledger_of.
  rewrite with_column_nth_error with (d := data_row (Z.of_nat k)).
  - reflexivity.
  - unfold profits_upto. rewrite cumsum_length, !length_map. reflexivity.
  - rewrite nth_error_map, range_nth_error by exact Hk. reflexivity.
Qed.

Lemma ledger_of_row (horizon_years : Z) (k : nat) (row : LedgerRow) :
  nth_error (the_ledger horizon_years) k = Some row ->
  (k < Z.to_nat (horizon_years * 12))%nat /\
  row = mkLedgerRow (Z.of_nat k + 1) (Z.of_nat k / 12 + 1)
                    (revenue (Z.of_nat k)) monthly_costs
                    (revenue (Z.of_nat k) - monthly_costs)
                    (nth k (cumsum (profits horizon_years)) 0).
Proof.
  intros H.
  assert (Hk : (k < Z.to_nat (horizon_years * 12))%nat).
  { rewrite <- ledger_of_length. apply nth_error_Some. congruence. }
  split; [exact Hk |].
  rewrite ledger_of_nth_error in H by exact Hk. congruence.
Qed.

End Projector.

(** ** Running sums *)








Lemma year_index_nat (m : nat) : (Z.of_nat m / 12)%Z = Z.of_nat (m / 12).
Proof. change 12%Z with (Z.of_nat 12). rewrite <- Nat2Z.inj_div. reflexivity. Qed.

(** ** The ledger of [project_cash_flow] *)







(** C8: in the ledger returned by [project_cash_flow], the row at 0-based
    index [m] has Month [m + 1] and Year [m / 12 + 1] (floor division), so
    both fields are functions of the row index, and neither decreases from a
    row to a later one. *)
Theorem month_and_year_fields
    (monthly_costs jobs_per_week avg_revenue_per_job : Q)
    (seasonality_factors : list Q) (annual_growth_rate : Q)
    (horizon_years : Z) (ledger : list LedgerRow) :
  project_cash_flow monthly_costs jobs_per_week avg_revenue_per_job
                    seasonality_factors annual_growth_rate horizon_years
  = Ok ledger ->
  (forall m row, nth_error ledger m = Some row ->
     Month row = (Z.of_nat m + 1)%Z /\ Year row = (Z.of_nat (m / 12) + 1)%Z) /\
  (forall i j ri rj, (i <= j)%nat ->
     nth_error ledger i = Some ri -> nth_error ledger j = Some rj ->
     (Month ri <= Month rj)%Z /\ (Year ri <= Year rj)%Z).
Proof.
  intros Hrun. apply project_cash_flow_inv in Hrun. subst ledger.
  assert (Hfields : forall m row,
             nth_error (ledger_of monthly_costs jobs_per_week avg_revenue_per_job
                                  seasonality_factors annual_growth_rate horizon_years) m
             = Some row ->
             Month row = (Z.of_nat m + 1)%Z /\ Year row = (Z.of_nat (m / 12) + 1)%Z).
  { intros m row Hrow. apply ledger_of_row in Hrow. destruct Hrow as [_ ->].
    simpl. rewrite year_index_nat. split; reflexivity. }
  split; [exact Hfields |].
  intros i j ri rj Hij Hi Hj.
  destruct (Hfields _ _ Hi) as [-> ->]. destruct (Hfields _ _ Hj) as [-> ->].
  pose proof (Nat.Div0.div_le_mono i j 12 Hij). lia.
Qed.

Lemma month_and_year_fields_witness :
  exists ledger,
    project_cash_flow 500 10 180 (repeat 1 12) 0.07 2 = Ok ledger /\
    (forall m row, nth_error ledger m = Some row ->
       Month row = (Z.of_nat m + 1)%Z /\ Year row = (Z.of_nat (m / 12) + 1)%Z) /\
    (forall i j ri rj, (i <= j)%nat ->
       nth_error ledger i = Some ri -> nth_error ledger j = Some rj ->
       (Month ri <= Month rj)%Z /\ (Year ri <= Year rj)%Z).
Proof.
  eexists. split; [vm_compute; reflexivity |].
  apply (@month_and_year_fields 500 10 180 (repeat 1 12) 0.07 2).
  vm_compute; reflexivity.
Defined.

(** C9: every row of the ledger returned by [project_cash_flow] carries the
    [monthly_costs] argument itself in its Costs field, whatever the month,
    the season and the growth. *)
Theorem costs_are_constant
    (monthly_costs jobs_per_week avg_revenue_per_job : Q)
    (seasonality_factors : list Q) (annual_growth_rate : Q)
    (horizon_years : Z) (ledger : list LedgerRow) (row : LedgerRow) :
  project_cash_flow monthly_costs jobs_per_week avg_revenue_per_job
                    seasonality_factors annual_growth_rate horizon_years
  = Ok ledger ->
  In row ledger ->
  Costs row = monthly_costs.
Proof.
  intros Hrun Hin. apply project_cash_flow_inv in Hrun. subst ledger.
  apply In_nth_error in Hin. destruct Hin as [k Hk].
  apply ledger_of_row in Hk. destruct Hk as [_ ->]. reflexivity.
Qed.

Lemma costs_are_constant_witness :
  exists ledger row,
    project_cash_flow 500 10 180 [0.5; 1; 1; 1; 1; 1; 1.5; 1; 1; 1; 1; 1] 0.07 2
    = Ok ledger /\
    nth_error ledger 18 = Some row /\
    Costs row = 500.
Proof.
  eexists. eexists.
  split; [vm_compute; reflexivity |].
  split; [vm_compute; reflexivity |].
  eapply (@costs_are_constant
            500 10 180 [0.5; 1; 1; 1; 1; 1; 1.5; 1; 1; 1; 1; 1] 0.07 2);
    [vm_compute; reflexivity |].
  apply nth_error_In with (n := 18%nat). vm_compute. reflexivity.
Defined.

(** The scenario worked out in the specification: costs 500, 10 jobs a
    week at 180 each, flat seasonality, no growth, one year. *)
Example concrete_scenario :
  exists ledger last,
    project_cash_flow 500 10 180 (repeat 1 12) 0 1 = Ok ledger /\
    length ledger = 12%nat /\
    Forall (fun row => Revenue row == 7200 /\ Profit row == 6700) ledger /\
    nth_error ledger 11 = Some last /\
    Cumulative_Profit last == 80400.
Proof.
  eexists. eexists.
  split; [vm_compute; reflexivity |].
  split; [reflexivity |].
  split; [repeat constructor |].
  split; reflexivity.
Qed.

Lemma revenue_at_unit_season j a s g (m : Z) :
  length s = 12%nat -> Forall (fun f => f == 1) s ->
  revenue_at j a s g m == j * 4 * a * (1 + g) ^ (m / 12).
Proof.
  intros Hlen Hall. unfold revenue_at.
  assert (Hone : nth (Z.to_nat (m mod 12)) s 0 == 1).
  { rewrite Forall_forall in Hall. apply Hall. apply nth_In.
    pose proof (month_index_bounds m). lia. }
  rewrite Hone. ring.
Qed.

(** C4: when all twelve seasonality factors are 1, the revenue of a row in
    (1-based) year [y] is the revenue of the corresponding month of year 1
    times [(1 + annual_growth_rate) ^ (y - 1)], and two rows of the same year
    have the same revenue. *)
Theorem growth_compounding
    (monthly_costs jobs_per_week avg_revenue_per_job : Q)
    (seasonality_factors : list Q) (annual_growth_rate : Q)
    (horizon_years : Z) (ledger : list LedgerRow) :
  length seasonality_factors = 12%nat ->
  Forall (fun f => f == 1) seasonality_factors ->
  project_cash_flow monthly_costs jobs_per_week avg_revenue_per_job
                    seasonality_factors annual_growth_rate horizon_years
  = Ok ledger ->
  (forall m row, nth_error ledger m = Some row ->
     exists first,
       nth_error ledger (m mod 12) = Some first /\
       Year first = 1%Z /\
       Revenue row == Revenue first * (1 + annual_growth_rate) ^ (Year row - 1)) /\
  (forall m m' row row',
     nth_error ledger m = Some row -> nth_error ledger m' = Some row' ->
     Year row = Year row' -> Revenue row == Revenue row').
Proof.
  intros Hlen Hall Hrun. apply project_cash_flow_inv in Hrun. subst ledger. split.
  - intros m row Hrow. apply ledger_of_row in Hrow. destruct Hrow as [Hm ->].
    pose proof (Nat.mod_upper_bound m 12 ltac:(lia)) as Hmod.
    eexists. split; [apply ledger_of_nth_error; lia |].
    cbn [Year Revenue]. split.
    + rewrite year_index_nat, Nat.div_small by exact Hmod. reflexivity.
    + rewrite !revenue_at_unit_season by assumption.
      rewrite (year_index_nat (m mod 12)), Nat.div_small by exact Hmod.
      replace (Z.of_nat m / 12 + 1 - 1)%Z with (Z.of_nat m / 12)%Z by lia.
      simpl (_ ^ Z.of_nat 0). ring.
  - intros m m' row row' Hrow Hrow' Hyear.
    apply ledger_of_row in Hrow, Hrow'.
    destruct Hrow as [_ ->], Hrow' as [_ ->]. cbn [Year Revenue] in *.
    rewrite !revenue_at_unit_season by assumption.
    replace (Z.of_nat m' / 12)%Z with (Z.of_nat m / 12)%Z by lia. reflexivity.
Qed.

Lemma growth_compounding_witness :
  exists ledger,
    project_cash_flow 500 10 180 (repeat 1 12) 0.07 3 = Ok ledger /\
    (forall m row, nth_error ledger m = Some row ->
       exists first,
         nth_error ledger (m mod 12) = Some first /\
         Year first = 1%Z /\
         Revenue row == Revenue first * (1 + 0.07) ^ (Year row - 1)) /\
    (forall m m' row row',
       nth_error ledger m = Some row -> nth_error ledger m' = Some row' ->
       Year row = Year row' -> Revenue row == Revenue row').
Proof.
  eexists. split; [vm_compute; reflexivity |].
  apply (@growth_compounding 500 10 180 (repeat 1 12) 0.07 3).
  - reflexivity.
  - repeat constructor.
  - vm_compute; reflexivity.
Defined.

(** ** Loops over the generator *)

Lemma for_loop_invariant A T (body : A -> T -> Sim T)
    (I : nat -> T -> RandomState -> Prop) (xs : list A)
    (acc : T) (st : RandomState) (acc' : T) (st' : RandomState) :
  for_loop xs body acc st = Ok (acc', st') ->
  I O acc st ->
  (forall k x a s a' s',
     nth_error xs k = Some x -> I k a s -> body x a s = Ok (a', s') -> I (S k) a' s') ->
  I (length xs) acc' st'.
Proof.
  revert I acc st. induction xs as [| x xs IH]; intros I acc st Hrun H0 Hstep.
  - simpl in Hrun. injection Hrun as <- <-. exact H0.
  - simpl in Hrun. destruct (body x acc st) as [[a1 s1] |] eqn:Hx; [| discriminate].
    apply (IH (fun k => I (S k)) a1 s1 Hrun).
    + apply (Hstep O x acc st); [reflexivity | exact H0 | exact Hx].
    + intros k y a s a' s' Hk. apply (Hstep (S k) y a s a' s'). exact Hk.
Qed.

Lemma for_loop_progress A T (body : A -> T -> Sim T)
    (I : nat -> T -> RandomState -> Prop) (xs : list A)
    (acc : T) (st : RandomState) :
  I O acc st ->
  (forall k x a s,
     nth_error xs k = Some x -> I k a s ->
     exists a' s', body x a s = Ok (a', s') /\ I (S k) a' s') ->
  exists acc' st', for_loop xs body acc st = Ok (acc', st') /\ I (length xs) acc' st'.
Proof.
  revert I acc st. induction xs as [| x xs IH]; intros I acc st H0 Hstep.
  - exists acc, st. split; [reflexivity | exact H0].
  - destruct (Hstep O x acc st eq_refl H0) as [a1 [s1 [Hx H1]]].
    destruct (IH (fun k => I (S k)) a1 s1 H1) as [acc' [st' [Hrun Hend]]].
    + intros k y a s Hk. apply (Hstep (S k) y a s). exact Hk.
    + exists acc', st'. split; [simpl; rewrite Hx; exact Hrun | exact Hend].
Qed.



(** ** Column assignment *)

Lemma list_update_Some A (l : list A) (i : nat) (x : A) :
  (i < length l)%nat -> exists l', list_update l i x = Some l'.
Proof.
  revert i. induction l as [| y t IH]; intros i Hi; simpl in Hi; [lia |].
  destruct i as [| i]; simpl; [eauto |].
  destruct (IH i) as [t' ->]; [lia |]. simpl. eauto.
Qed.

Lemma list_update_inv A (l l' : list A) (i : nat) (x : A) :
  list_update l i x = Some l' ->
  (i < length l)%nat /\ length l' = length l /\
  nth_error l' i = Some x /\
  (forall j, j <> i -> nth_error l' j = nth_error l j).
Proof.
  revert i l'. induction l as [| y t IH]; intros i l' H; simpl in H; [discriminate |].
  destruct i as [| i].
  - injection H as <-. simpl. repeat split; [lia |].
    intros [| j] Hj; [congruence | reflexivity].
  - destruct (list_update t i x) as [t' |] eqn:Ht; [| discriminate].
    injection H as <-. destruct (IH _ _ Ht) as [Hi [Hlen [Hnth Hother]]].
    simpl. repeat split; [lia | lia | exact Hnth |].
    intros [| j] Hj; [reflexivity | apply Hother; congruence].
Qed.

Lemma set_column_inv (a a' : Matrix) (m : Z) (col : list Q) :
  (0 <= m)%Z -> set_column a m col = Ok a' ->
  list_update a (Z.to_nat m) col = Some a'.
Proof.
  intros Hm. unfold set_column.
  destruct (Z.ltb_spec m 0); [lia |].
  destruct (list_update a (Z.to_nat m) col); [| discriminate].
  intros Heq. injection Heq as <-. reflexivity.
Qed.

Lemma set_column_ok (a : Matrix) (m : Z) (col : list Q) :
  (0 <= m)%Z -> (Z.to_nat m < length a)%nat ->
  exists a', set_column a m col = Ok a' /\ list_update a (Z.to_nat m) col = Some a'.
Proof.
  intros Hm Hlt. unfold set_column.
  destruct (Z.ltb_spec m 0); [lia |].
  destruct (list_update_Some _ a (Z.to_nat m) col Hlt) as [a' ->]. eauto.
Qed.

(** ** The matrix of profit samples in closed form *)

Lemma np_zeros_inv (rows cols : Z) (a : Matrix) :
  np_zeros rows cols = Ok a ->
  (0 <= rows)%Z /\ (0 <= cols)%Z /\ length a = Z.to_nat cols.
Proof.
  unfold np_zeros.
  destruct (Z.ltb_spec rows 0); [discriminate |].
  destruct (Z.ltb_spec cols 0); [discriminate |].
  simpl. intros Heq. injection Heq as <-. rewrite repeat_length. lia.
Qed.

Lemma np_zeros_ok (rows cols : Z) :
  (0 <= rows)%Z -> (0 <= cols)%Z ->
  exists a, np_zeros rows cols = Ok a /\ length a = Z.to_nat cols.
Proof.
  intros Hr Hc. unfold np_zeros.
  destruct (Z.ltb_spec rows 0); [lia |].
  destruct (Z.ltb_spec cols 0); [lia |].
  simpl. eexists. split; [reflexivity | apply repeat_length].
Qed.

Section Simulator.

Variable z : Realization.
Variables monthly_costs jobs_per_week avg_revenue_per_job : Q.
Variable seasonality_factors : list Q.
Variable annual_growth_rate : Q.
Variable horizon_years : Z.
Variable simulations : Z.

Local Abbreviation call_at :=
  (sample_call jobs_per_week avg_revenue_per_job seasonality_factors
               annual_growth_rate simulations).

Local Abbreviation column_at :=
  (profit_column z monthly_costs jobs_per_week avg_revenue_per_job
                 seasonality_factors annual_growth_rate simulations).

Local Abbreviation after :=
  (after_months z monthly_costs jobs_per_week avg_revenue_per_job
                seasonality_factors annual_growth_rate simulations).

Local Abbreviation month_body :=
    (simulate_month z monthly_costs jobs_per_week avg_revenue_per_job
                    seasonality_factors annual_growth_rate simulations).

Lemma simulate_month_inv (m : Z) (results results' : Matrix) (st st' : RandomState) :
  (0 <= m)%Z ->
  month_body m results st = Ok (results', st') ->
  (Z.to_nat (m mod 12) < length seasonality_factors)%nat /\
  0 <= avg_revenue_per_job * 0.15 /\ (0 <= simulations)%Z /\
  list_update results (Z.to_nat m) (column_at (length (served st)) m)
  = Some results' /\
  st' = mkState (served st ++ [call_at m]).
Proof.
  intros Hm. unfold simulate_month. cbn [bind Sim_monad]. unfold lift at 1.
  pose proof (month_index_bounds m) as Hb.
  destruct (getitem seasonality_factors (m mod 12)) as [season |] eqn:Hs; [| discriminate].
  apply getitem_inv with (d := 0) in Hs; [| lia]. destruct Hs as [Hlt ->].
  unfold np_random_normal.
  destruct (Qle_bool 0 (avg_revenue_per_job * 0.15)) eqn:Hscale; [| discriminate].
  destruct (Z.ltb_spec simulations 0); [discriminate |].
  cbn [negb]. unfold lift.
  match goal with
  | |- context [set_column results m ?col] =>
      destruct (set_column results m col) as [a' |] eqn:Hset; [| discriminate]
  end.
  intros Heq. injection Heq as <- <-.
  apply set_column_inv in Hset; [| exact Hm].
  apply Qle_bool_iff in Hscale.
  repeat split; try assumption.
Qed.

Lemma simulate_month_ok (m : Z) (results : Matrix) (st : RandomState) :
  (0 <= m)%Z ->
  (Z.to_nat (m mod 12) < length seasonality_factors)%nat ->
  0 <= avg_revenue_per_job * 0.15 -> (0 <= simulations)%Z ->
  (Z.to_nat m < length results)%nat ->
  exists results',
    month_body m results st
    = Ok (results', mkState (served st ++ [call_at m])) /\
    list_update results (Z.to_nat m) (column_at (length (served st)) m)
    = Some results'.
Proof.
  intros Hm Hs Hscale Hsim Hcol.
  unfold simulate_month. cbn [bind Sim_monad]. unfold lift at 1.
  pose proof (month_index_bounds m) as Hb.
  rewrite getitem_nth with (d := 0) by lia.
  unfold np_random_normal.
  apply Qle_bool_iff in Hscale. rewrite Hscale.
  destruct (Z.ltb_spec simulations 0); [lia |].
  cbn [negb]. unfold lift.
  match goal with
  | |- context [set_column results m ?col] =>
      destruct (set_column_ok results m col Hm Hcol) as [a' [Hset Hupd]]
  end.
  rewrite Hset. exists a'. split; [reflexivity | exact Hupd].
Qed.


Lemma after_months_step (st0 : RandomState) (cols k : nat) (m : Z)
    (results results' : Matrix) (st st' : RandomState) :
  nth_error (range (horizon_years * 12)) k = Some m ->
  after st0 cols k results st ->
  simulate_month z monthly_costs jobs_per_week avg_revenue_per_job
                 seasonality_factors annual_growth_rate simulations m results st
  = Ok (results', st') ->
  after st0 cols (S k) results' st'.
Proof.
  intros Hk [Hlen [Hserved [Hcols [Hseason Hscale]]]] Hrun.
  assert (Hm : m = Z.of_nat k).
  { assert (Hlt : (k < Z.to_nat (horizon_years * 12))%nat).
    { rewrite <- range_length. apply nth_error_Some. congruence. }
    rewrite range_nth_error in Hk by exact Hlt. congruence. }
  subst m. apply simulate_month_inv in Hrun; [| lia].
  destruct Hrun as [Hs [Hsc [_ [Hupd ->]]]].
  rewrite Nat2Z.id in Hupd. apply list_update_inv in Hupd.
  destruct Hupd as [_ [Hlen' [Hnew Hold]]].
  assert (Hcount : length (served st) = (length (served st0) + k)%nat).
  { rewrite Hserved, length_app, !length_map, length_seq. reflexivity. }
  unfold after_months. repeat split.
  - congruence.
  - cbn [served]. rewrite Hserved, seq_S, !map_app, <- app_assoc. reflexivity.
  - intros i Hi. destruct (Nat.eq_dec i k) as [-> | Hne].
    + rewrite Hnew, Hcount. reflexivity.
    + rewrite Hold by exact Hne. apply Hcols. lia.
  - intros i Hi. destruct (Nat.eq_dec i k) as [-> | Hne]; [exact Hs | apply Hseason; lia].
  - intros _. exact Hsc.
Qed.

Lemma simulate_profits_inv (st st' : RandomState) (results : Matrix) :
  simulate_profits z monthly_costs jobs_per_week avg_revenue_per_job
                   seasonality_factors annual_growth_rate horizon_years simulations st
  = Ok (results, st') ->
  (0 <= simulations)%Z /\ (0 <= horizon_years * 12)%Z /\
  after st (Z.to_nat (horizon_years * 12))
               (Z.to_nat (horizon_years * 12)) results st'.
Proof.
  unfold simulate_profits. cbn [bind Sim_monad]. unfold lift.
  destruct (np_zeros simulations (horizon_years * 12)) as [zeros |] eqn:Hz; [| discriminate].
  apply np_zeros_inv in Hz. destruct Hz as [Hsim [Hmonths Hlen]].
  intros Hrun. split; [exact Hsim |]. split; [exact Hmonths |].
  pose proof (for_loop_invariant _ _ _
                (after st (Z.to_nat (horizon_years * 12))) _ _ _ _ _ Hrun) as Hinv.
  rewrite range_length in Hinv. apply Hinv.
  - unfold after_months. repeat split.
    + exact Hlen.
    + simpl. rewrite app_nil_r. reflexivity.
    + intros i Hi. lia.
    + intros i Hi. lia.
    + intros Hk. lia.
  - intros k m a s a' s'. apply after_months_step.
Qed.

Lemma simulate_profits_total (st : RandomState) :
  (0 <= simulations)%Z -> (0 <= horizon_years)%Z ->
  0 <= avg_revenue_per_job ->
  horizon_years = 0%Z \/ (12 <= length seasonality_factors)%nat ->
  exists results st',
    simulate_profits z monthly_costs jobs_per_week avg_revenue_per_job
                     seasonality_factors annual_growth_rate horizon_years simulations st
    = Ok (results, st').
Proof.
  intros Hsim Hh Havg Hs.
  unfold simulate_profits. cbn [bind Sim_monad]. unfold lift.
  destruct (@np_zeros_ok simulations (horizon_years * 12)) as [zeros [-> Hlen]];
    [lia | lia |].
  destruct (@for_loop_progress _ _
              (simulate_month z monthly_costs jobs_per_week avg_revenue_per_job
                              seasonality_factors annual_growth_rate simulations)
              (fun _ a _ => length a = Z.to_nat (horizon_years * 12))
              (range (horizon_years * 12)) zeros st Hlen)
    as [results [st' [Hrun _]]]; [| eauto].
  intros k m a s Hk Ha.
  assert (Hlt : (k < Z.to_nat (horizon_years * 12))%nat).
  { rewrite <- range_length. apply nth_error_Some. congruence. }
  rewrite range_nth_error in Hk by exact Hlt. injection Hk as <-.
  pose proof (month_index_bounds (Z.of_nat k)) as Hb.
  destruct (simulate_month_ok (Z.of_nat k) a s) as [a' [Hok Hupd]].
  - lia.
  - destruct Hs; lia.
  - apply Qmult_le_0_compat; [exact Havg | discriminate].
  - exact Hsim.
  - lia.
  - exists a', (mkState (served s ++ [call_at (Z.of_nat k)])).
    split; [exact Hok |]. apply list_update_inv in Hupd. lia.
Qed.

End Simulator.

(** ** Order statistics *)

Lemma StronglySorted_ascending (l : list Q) :
  StronglySorted Qle l -> ascending l.
Proof.
  induction 1 as [| a l Hsorted IH Hall]; intros i j Hij; simpl in Hij.
  - lia.
  - destruct i as [| i], j as [| j]; simpl; try lia.
    + apply Qle_refl.
    + rewrite Forall_forall in Hall. apply Hall, nth_In. lia.
    + apply IH. lia.
Qed.

Lemma insert_sorted_In (x y : Q) (l : list Q) :
  In y (insert_sorted x l) -> y = x \/ In y l.
Proof.
  induction l as [| a l IH]; simpl.
  - intros [<- | []]. left. reflexivity.
  - destruct (Qle_bool x a); simpl.
    + intros [<- | H]; [left; reflexivity | right; exact H].
    + intros [<- | H]; [right; left; reflexivity |].
      destruct (IH H) as [-> | Hin]; [left; reflexivity | right; right; exact Hin].
Qed.

Lemma insert_sorted_length (x : Q) (l : list Q) :
  length (insert_sorted x l) = S (length l).
Proof.
  induction l as [| a l IH]; simpl; [reflexivity |].
  destruct (Qle_bool x a); simpl; [| rewrite IH]; reflexivity.
Qed.

Lemma insert_sorted_StronglySorted (x : Q) (l : list Q) :
  StronglySorted Qle l -> StronglySorted Qle (insert_sorted x l).
Proof.
  induction 1 as [| a l Hsorted IH Hall]; simpl.
  - repeat constructor.
  - destruct (Qle_bool x a) eqn:Hxa.
    + apply Qle_bool_iff in Hxa. constructor; [constructor; assumption |].
      constructor; [exact Hxa |].
      eapply Forall_impl; [| exact Hall].
      intros b Hab. apply Qle_trans with a; assumption.
    + assert (Hax : a <= x).
      { destruct (Qlt_le_dec a x) as [Hlt | Hle]; [apply Qlt_le_weak, Hlt |].
        apply Qle_bool_iff in Hle. congruence. }
      constructor; [exact IH |].
      apply Forall_forall. intros b Hb. apply insert_sorted_In in Hb.
      destruct Hb as [-> | Hb]; [exact Hax |].
      rewrite Forall_forall in Hall. apply Hall, Hb.
Qed.

Lemma np_sort_ascending (sample : list Q) : ascending (np_sort sample).
Proof.
  apply StronglySorted_ascending. unfold np_sort.
  induction sample as [| x t IH]; simpl;
    [constructor | apply insert_sorted_StronglySorted, IH].
Qed.

Lemma np_sort_length (sample : list Q) : length (np_sort sample) = length sample.
Proof.
  unfold np_sort. induction sample as [| x t IH]; simpl; [reflexivity |].
  rewrite insert_sorted_length, IH. reflexivity.
Qed.


Lemma lerp_bounds (a b t : Q) : a <= b -> 0 <= t <= 1 -> a <= lerp a b t <= b.
Proof.
  intros Hab [Ht0 Ht1]. unfold lerp.
  assert (H1 : 0 <= (b - a) * t) by (apply Qmult_le_0_compat; lra).
  assert (H2 : 0 <= (b - a) * (1 - t)) by (apply Qmult_le_0_compat; lra).
  split; lra.
Qed.

Lemma lerp_mono (a b s t : Q) : a <= b -> s <= t -> lerp a b s <= lerp a b t.
Proof.
  intros Hab Hst. unfold lerp.
  assert (H : 0 <= (b - a) * (t - s)) by (apply Qmult_le_0_compat; lra).
  lra.
Qed.

Lemma np_percentile_interpolate (sample : list Q) (q v : Q) :
  np_percentile sample q = Ok v ->
  sample <> [] /\
  v = interpolate (np_sort sample) (Z.of_nat (length sample))
                  (inject_Z (Z.of_nat (length sample) - 1) * (q / 100)).
Proof.
  destruct sample as [| x t]; [discriminate |].
  intros H. injection H as <-. split; [discriminate | reflexivity].
Qed.

Lemma interpolate_top (arr : list Q) (n : Z) (v : Q) :
  inject_Z (n - 1) <= v ->
  interpolate arr n v == nth (Z.to_nat (n - 1)) arr 0.
Proof.
  intros H. unfold interpolate. apply Qle_bool_iff in H. rewrite H.
  unfold lerp. ring.
Qed.

Lemma floor_bounds (v : Q) :
  inject_Z (Qfloor v) <= v /\ v < inject_Z (Qfloor v) + 1.
Proof.
  split; [apply Qfloor_le |].
  pose proof (Qlt_floor v) as H. rewrite inject_Z_plus in H. exact H.
Qed.

Lemma interpolate_inside (arr : list Q) (n : Z) (v : Q) :
  0 <= v -> v < inject_Z (n - 1) ->
  interpolate arr n v =
  lerp (nth (Z.to_nat (Qfloor v)) arr 0) (nth (Z.to_nat (Qfloor v + 1)) arr 0)
       (v - inject_Z (Qfloor v)) /\
  (0 <= Qfloor v)%Z /\ (Qfloor v + 1 <= n - 1)%Z.
Proof.
  intros Hv0 Hvn. unfold interpolate.
  destruct (Qle_bool (inject_Z (n - 1)) v) eqn:Htop.
  { apply Qle_bool_iff in Htop. lra. }
  apply Qle_bool_iff in Hv0. rewrite Hv0. cbn [negb].
  apply Qle_bool_iff in Hv0.
  split; [reflexivity |]. split.
  - change 0%Z with (Qfloor 0). apply Qfloor_resp_le. exact Hv0.
  - destruct (floor_bounds v) as [Hlo _].
    assert (Hlt : inject_Z (Qfloor v) < inject_Z (n - 1)) by lra.
    rewrite <- Zlt_Qlt in Hlt. lia.
Qed.

Lemma interpolate_between (arr : list Q) (n : Z) (v : Q) :
  ascending arr -> length arr = Z.to_nat n ->
  0 <= v -> v < inject_Z (n - 1) ->
  nth (Z.to_nat (Qfloor v)) arr 0 <= interpolate arr n v /\
  interpolate arr n v <= nth (Z.to_nat (Qfloor v + 1)) arr 0.
Proof.
  intros Hasc Hlen Hv0 Hvn.
  destruct (@interpolate_inside arr n _ Hv0 Hvn) as [-> [Hf0 Hfn]].
  destruct (floor_bounds v) as [Hlo Hhi].
  apply lerp_bounds; [apply Hasc; lia | lra].
Qed.

Lemma interpolate_mono (arr : list Q) (n : Z) (v w : Q) :
  ascending arr -> length arr = Z.to_nat n ->
  0 <= v -> v <= w ->
  interpolate arr n v <= interpolate arr n w.
Proof.
  intros Hasc Hlen Hv0 Hvw.
  destruct (Qlt_le_dec w (inject_Z (n - 1))) as [Hw | Hw].
  - assert (Hv : v < inject_Z (n - 1)) by lra.
    assert (Hw0 : 0 <= w) by lra.
    pose proof (Qfloor_resp_le _ _ Hvw) as Hfloor.
    destruct (@interpolate_inside arr n _ Hw0 Hw) as [_ [Hf0 Hfn]].
    destruct (@interpolate_inside arr n _ Hv0 Hv) as [_ [Hg0 Hgn]].
    destruct (Z.eq_dec (Qfloor v) (Qfloor w)) as [Heq | Hne].
    + destruct (@interpolate_inside arr n _ Hw0 Hw) as [-> _].
      destruct (@interpolate_inside arr n _ Hv0 Hv) as [-> _].
      rewrite Heq. apply lerp_mono; [apply Hasc; lia | lra].
    + apply Qle_trans with (nth (Z.to_nat (Qfloor v + 1)) arr 0);
        [apply (@interpolate_between arr n _ Hasc Hlen Hv0 Hv) |].
      apply Qle_trans with (nth (Z.to_nat (Qfloor w)) arr 0);
        [apply Hasc; lia | apply (@interpolate_between arr n _ Hasc Hlen Hw0 Hw)].
  - rewrite (@interpolate_top arr n _ Hw).
    destruct (Qlt_le_dec v (inject_Z (n - 1))) as [Hv | Hv].
    + destruct (@interpolate_inside arr n _ Hv0 Hv) as [_ [Hg0 Hgn]].
      apply Qle_trans with (nth (Z.to_nat (Qfloor v + 1)) arr 0);
        [apply (@interpolate_between arr n _ Hasc Hlen Hv0 Hv) | apply Hasc; lia].
    + rewrite (@interpolate_top arr n _ Hv). apply Qle_refl.
Qed.

Lemma half_index_floor (n : Z) : Qfloor ((n - 1) # 2) = ((n - 1) / 2)%Z.
Proof. reflexivity. Qed.

Lemma half_index_value (n : Z) : (n - 1) # 2 == inject_Z (n - 1) * (1 # 2).
Proof. unfold Qeq, Qmult, inject_Z. cbn [Qnum Qden]. lia. Qed.

Lemma np_median_interpolate (sample : list Q) (md : Q) :
  np_median sample = Ok md ->
  sample <> [] /\
  md == interpolate (np_sort sample) (Z.of_nat (length sample))
                    ((Z.of_nat (length sample) - 1) # 2).
Proof.
  destruct sample as [| x t]; [discriminate |].
  unfold np_median. set (arr := np_sort (x :: t)).
  set (n := Z.of_nat (length (x :: t))).
  assert (Hn : (1 <= n)%Z) by (unfold n; simpl length; lia).
  intros H. split; [discriminate |].
  pose proof (Z.div_mod n 2 ltac:(lia)) as Hdiv.
  pose proof (Z.mod_pos_bound n 2 ltac:(lia)) as Hmod.
  destruct (Z.eqb_spec (n mod 2) 1) as [Hodd | Heven]; injection H as <-.
  - assert (Hk : ((n - 1) / 2 = n / 2)%Z).
    { symmetry. apply Z.div_unique with (r := 0%Z); lia. }
    destruct (Z.eq_dec n 1) as [-> | Hbig].
    + rewrite interpolate_top; [reflexivity |].
      unfold Qle, inject_Z. cbn [Qnum Qden]. lia.
    + destruct (@interpolate_inside arr n ((n - 1) # 2)) as [-> _].
      * unfold Qle. cbn [Qnum Qden]. lia.
      * unfold Qlt, inject_Z. cbn [Qnum Qden]. lia.
      * rewrite half_index_floor, Hk. unfold lerp.
        set (a := nth (Z.to_nat (n / 2)) arr 0).
        set (b := nth (Z.to_nat (n / 2 + 1)) arr 0).
        assert (Hg : ((n - 1) # 2) - inject_Z (n / 2) == 0).
        { unfold Qeq, Qminus, Qplus, Qopp, inject_Z. cbn [Qnum Qden]. lia. }
        rewrite Hg. ring.
  - assert (Hk : ((n - 1) / 2 = n / 2 - 1)%Z).
    { symmetry. apply Z.div_unique with (r := 1%Z); lia. }
    destruct (@interpolate_inside arr n ((n - 1) # 2)) as [-> _].
    + unfold Qle. cbn [Qnum Qden]. lia.
    + unfold Qlt, inject_Z. cbn [Qnum Qden]. lia.
    + rewrite half_index_floor, Hk.
      replace (n / 2 - 1 + 1)%Z with (n / 2)%Z by lia. unfold lerp.
      set (a := nth (Z.to_nat (n / 2 - 1)) arr 0).
      set (b := nth (Z.to_nat (n / 2)) arr 0).
      assert (Hg : ((n - 1) # 2) - inject_Z (n / 2 - 1) == 1 # 2).
      { unfold Qeq, Qminus, Qplus, Qopp, inject_Z. cbn [Qnum Qden]. lia. }
      rewrite Hg. field.
Qed.

Lemma sample_size_positive (sample : list Q) :
  sample <> [] -> 0 <= inject_Z (Z.of_nat (length sample) - 1).
Proof.
  intros H. destruct sample as [| x t]; [congruence |].
  change 0 with (inject_Z 0). rewrite <- Zle_Qle. simpl length. lia.
Qed.

(** The three statistics of one column are ordered. *)
Lemma percentile_median_order (sample : list Q) (lo md up : Q) :
  np_percentile sample 5 = Ok lo ->
  np_median sample = Ok md ->
  np_percentile sample 95 = Ok up ->
  lo <= md /\ md <= up.
Proof.
  intros Hlo Hmd Hup.
  apply np_percentile_interpolate in Hlo, Hup.
  apply np_median_interpolate in Hmd.
  destruct Hlo as [Hne ->], Hup as [_ ->], Hmd as [_ Hmd].
  pose proof (sample_size_positive _ Hne) as Hsize.
  pose proof (half_index_value (Z.of_nat (length sample))) as Hhalf.
  pose proof (np_sort_ascending sample) as Hasc.
  assert (Hlen : length (np_sort sample) = Z.to_nat (Z.of_nat (length sample)))
    by (rewrite np_sort_length; lia).
  rewrite Hmd.
  assert (H5 : (5 / 100 : Q) == 1 # 20) by reflexivity.
  assert (H95 : (95 / 100 : Q) == 19 # 20) by reflexivity.
  assert (Hmid : 0 <= (Z.of_nat (length sample) - 1) # 2) by (rewrite Hhalf; lra).
  split; apply interpolate_mono; try assumption.
  - rewrite H5. apply Qmult_le_0_compat; [exact Hsize | discriminate].
  - rewrite H5, Hhalf. lra.
  - rewrite H95, Hhalf. lra.
Qed.


(** ** The summary frame *)

Lemma Forall2_nth_error_r A B (P : A -> B -> Prop) (xs : list A) (ys : list B)
    (k : nat) (y : B) :
  Forall2 P xs ys -> nth_error ys k = Some y ->
  exists x, nth_error xs k = Some x /\ P x y.
Proof.
  intros H. revert k. induction H as [| x0 y0 xs ys Hxy _ IH]; intros k Hk.
  - destruct k; discriminate.
  - destruct k as [| k]; simpl in *.
    + injection Hk as <-. eauto.
    + apply IH. exact Hk.
Qed.

Lemma combine_nth_error A B (l : list A) (l' : list B) (k : nat) (x : A) (y : B) :
  nth_error (combine l l') k = Some (x, y) ->
  nth_error l k = Some x /\ nth_error l' k = Some y.
Proof.
  revert l' k. induction l as [| a l IH]; intros l' k H; simpl in H.
  - destruct k; discriminate.
  - destruct l' as [| b l']; [destruct k; discriminate |].
    destruct k as [| k]; simpl in *.
    + injection H as <- <-. split; reflexivity.
    + apply IH. exact H.
Qed.

Lemma summary_frame_nth_error (month : list Z) (median lower upper : list Q)
    (k : nat) (row : SummaryRow) :
  nth_error (summary_frame month median lower upper) k = Some row ->
  nth_error month k = Some (Summary_Month row) /\
  nth_error median k = Some (Median_Profit row) /\
  nth_error lower k = Some (Lower_5pct row) /\
  nth_error upper k = Some (Upper_95pct row).
Proof.
  unfold summary_frame. rewrite nth_error_map.
  destruct (nth_error _ k) as [[[[m md] lo] up] |] eqn:Hk; [| discriminate].
  intros Heq. injection Heq as <-. cbn.
  apply combine_nth_error in Hk. destruct Hk as [Hk Hup].
  apply combine_nth_error in Hk. destruct Hk as [Hk Hlo].
  apply combine_nth_error in Hk. destruct Hk as [Hm Hmd].
  repeat split; assumption.
Qed.

Lemma summarize_inv (horizon_years : Z) (results : Matrix) (summary : list SummaryRow)
    (k : nat) (row : SummaryRow) :
  summarize horizon_years results = Ok summary ->
  nth_error summary k = Some row ->
  exists col,
    nth_error results k = Some col /\
    np_median col = Ok (Median_Profit row) /\
    np_percentile col 5 = Ok (Lower_5pct row) /\
    np_percentile col 95 = Ok (Upper_95pct row) /\
    nth_error (np_arange 1 (horizon_years * 12 + 1)) k = Some (Summary_Month row).
Proof.
  unfold summarize. cbn [bind result_monad ret].
  destruct (for_each results np_median) as [median |] eqn:Hmd; [| discriminate].
  destruct (for_each results (fun col => np_percentile col 5)) as [lower |] eqn:Hlo;
    [| discriminate].
  destruct (for_each results (fun col => np_percentile col 95)) as [upper |] eqn:Hup;
    [| discriminate].
  intros Heq Hrow. injection Heq as <-.
  apply summary_frame_nth_error in Hrow.
  destruct Hrow as [Hmonth [Hmedian [Hlower Hupper]]].
  apply for_each_inv in Hmd, Hlo, Hup.
  destruct (Forall2_nth_error_r _ _ _ _ _ _ _ Hmd Hmedian) as [col [Hcol Hcmd]].
  destruct (Forall2_nth_error_r _ _ _ _ _ _ _ Hlo Hlower) as [col1 [Hcol1 Hclo]].
  destruct (Forall2_nth_error_r _ _ _ _ _ _ _ Hup Hupper) as [col2 [Hcol2 Hcup]].
  assert (col1 = col) by congruence. assert (col2 = col) by congruence. subst col1 col2.
  exists col. repeat split; assumption.
Qed.

Lemma monte_carlo_cash_flow_inv z costs j a s g h sims st summary st' :
  monte_carlo_cash_flow z costs j a s g h sims st = Ok (summary, st') ->
  exists results,
    simulate_profits z costs j a s g h sims st = Ok (results, st') /\
    summarize h results = Ok summary.
Proof.
  unfold monte_carlo_cash_flow. cbn [bind Sim_monad]. unfold lift.
  destruct (simulate_profits z costs j a s g h sims st) as [[results st1] |]; [| discriminate].
  destruct (summarize h results) as [rows |] eqn:Hsum; [| discriminate].
  intros Heq. injection Heq as <- <-. exists results. split; [reflexivity | exact Hsum].
Qed.

(** ** The summary of [monte_carlo_cash_flow] *)

(** C5: whatever the random draws, in every row of the summary returned by
    [monte_carlo_cash_flow] the 5th percentile is at most the median and
    the median at most the 95th percentile: the three are read off the
    same sorted column of profit samples. *)
Theorem percentile_band_ordering
    (z : Realization)
    (monthly_costs jobs_per_week avg_revenue_per_job : Q)
    (seasonality_factors : list Q) (annual_growth_rate : Q)
    (horizon_years simulations : Z)
    (st st' : RandomState) (summary : list SummaryRow) (row : SummaryRow) :
  monte_carlo_cash_flow z monthly_costs jobs_per_week avg_revenue_per_job
                        seasonality_factors annual_growth_rate
                        horizon_years simulations st
  = Ok (summary, st') ->
  In row summary ->
  Lower_5pct row <= Median_Profit row /\ Median_Profit row <= Upper_95pct row.
Proof.
  intros Hrun Hin.
  apply monte_carlo_cash_flow_inv in Hrun. destruct Hrun as [results [_ Hsum]].
  apply In_nth_error in Hin. destruct Hin as [k Hk].
  destruct (summarize_inv _ _ _ _ _ Hsum Hk) as [col [_ [Hmd [Hlo [Hup _]]]]].
  exact (percentile_median_order _ _ _ _ Hlo Hmd Hup).
Qed.

Lemma percentile_band_ordering_witness :
  exists summary st' row,
    monte_carlo_cash_flow example_draws 500 10 180 (repeat 1 12) 0.07 1 5 fresh
    = Ok (summary, st') /\
    nth_error summary 3 = Some row /\
    Lower_5pct row <= Median_Profit row /\ Median_Profit row <= Upper_95pct row.
Proof.
  eexists. eexists. eexists.
  split; [vm_compute; reflexivity |].
  split; [vm_compute; reflexivity |].
  eapply (percentile_band_ordering example_draws 500 10 180 (repeat 1 12) 0.07 1 5 fresh).
  - vm_compute; reflexivity.
  - apply nth_error_In with (n := 3%nat). vm_compute; reflexivity.
Defined.






Lemma with_column_map B (f : LedgerRow -> B) (g : DataRow -> B)
    (data : list DataRow) (cs : list Q) :
  length cs = length data ->
  (forall d c, f (mkLedgerRow (data_month d) (data_year d) (data_revenue d)
                              (data_costs d) (data_profit d) c) = g d) ->
  map f (with_column data cs) = map g data.
Proof.
  intros Hlen Hfg. revert cs Hlen. induction data as [| d data IH]; intros cs Hlen.
  - reflexivity.
  - destruct cs as [| c cs]; [discriminate |].
    unfold with_column in *. simpl. rewrite Hfg. f_equal. apply IH. simpl in Hlen. lia.
Qed.

(** C7: the calls [monte_carlo_cash_flow] makes to [np.random.normal] are,
    month by month, those whose mean is the Revenue of the row that
    [project_cash_flow] computes for the same parameters and month, and
    whose standard deviation is [avg_revenue_per_job * 0.15], the same in
    every month. *)
Theorem sampling_distribution
    (z : Realization)
    (monthly_costs jobs_per_week avg_revenue_per_job : Q)
    (seasonality_factors : list Q) (annual_growth_rate : Q)
    (horizon_years simulations : Z)
    (st st' : RandomState) (summary : list SummaryRow) :
  monte_carlo_cash_flow z monthly_costs jobs_per_week avg_revenue_per_job
                        seasonality_factors annual_growth_rate
                        horizon_years simulations st
  = Ok (summary, st') ->
  exists ledger,
    project_cash_flow monthly_costs jobs_per_week avg_revenue_per_job
                      seasonality_factors annual_growth_rate horizon_years
    = Ok ledger /\
    served st' =
    served st ++
    map (fun row => mkCall (Revenue row) (avg_revenue_per_job * 0.15) simulations) ledger.
Proof.
  intros Hrun. apply monte_carlo_cash_flow_inv in Hrun.
  destruct Hrun as [results [Hsim _]].
  apply simulate_profits_inv in Hsim.
  destruct Hsim as [_ [Hmonths [_ [Hserved [_ [Hseason _]]]]]].
  eexists. split.
  - apply project_cash_flow_total.
    destruct (Z.le_gt_cases horizon_years 0) as [Hle | Hgt]; [left; exact Hle | right].
    specialize (Hseason 11%nat ltac:(lia)). simpl in Hseason. lia.
  - rewrite Hserved. f_equal. unfold ledger_of.
    rewrite with_column_map
      with (g := fun d => mkCall (data_revenue d) (avg_revenue_per_job * 0.15) simulations).
    + change (map Z.of_nat (seq 0 (Z.to_nat (horizon_years * 12))))
        with (range (horizon_years * 12)).
      rewrite map_map. apply map_ext. intros m. reflexivity.
    + unfold profits_upto. rewrite cumsum_length, !length_map. reflexivity.
    + reflexivity.
Qed.

Lemma sampling_distribution_witness :
  exists summary st',
    monte_carlo_cash_flow example_draws 500 10 180
                          [1; 1; 1; 1; 1; 1; 1.2; 1; 1; 1; 1; 1] 0.07 2 3 fresh
    = Ok (summary, st') /\
    exists ledger,
      project_cash_flow 500 10 180 [1; 1; 1; 1; 1; 1; 1.2; 1; 1; 1; 1; 1] 0.07 2
      = Ok ledger /\
      served st' =
      served fresh ++ map (fun row => mkCall (Revenue row) (180 * 0.15) 3) ledger.
Proof.
  eexists. eexists. split; [vm_compute; reflexivity |].
  eapply (sampling_distribution example_draws 500 10 180
            [1; 1; 1; 1; 1; 1; 1.2; 1; 1; 1; 1; 1] 0.07 2 3 fresh).
  vm_compute; reflexivity.
Defined.

(** ** Which seasonality factors are read *)











(** ** The simulator returns a summary *)

Lemma for_each_total A B (body : A -> result B) (xs : list A) :
  (forall x, In x xs -> exists y, body x = Ok y) ->
  exists ys, for_each xs body = Ok ys /\ length ys = length xs.
Proof.
  induction xs as [| x xs IH]; intros H; simpl.
  - exists []. split; reflexivity.
  - destruct (H x (or_introl eq_refl)) as [y ->].
    destruct IH as [ys [-> Hlen]]; [intros x' Hx'; apply H; right; exact Hx' |].
    exists (y :: ys). split; [reflexivity | simpl; rewrite Hlen; reflexivity].
Qed.

Lemma summary_frame_length (month : list Z) (median lower upper : list Q) (n : nat) :
  length month = n -> length median = n -> length lower = n -> length upper = n ->
  length (summary_frame month median lower upper) = n.
Proof.
  intros Hm Hmd Hlo Hup. unfold summary_frame.
  rewrite length_map, !length_combine, Hm, Hmd, Hlo, Hup, !Nat.min_id. reflexivity.
Qed.

Lemma np_arange_length (a b : Z) : length (np_arange a b) = Z.to_nat (b - a).
Proof. unfold np_arange. rewrite length_map. apply range_length. Qed.

Lemma summarize_total (horizon_years : Z) (results : Matrix) :
  length results = Z.to_nat (horizon_years * 12) ->
  (forall col, In col results -> col <> []) ->
  exists summary,
    summarize horizon_years results = Ok summary /\
    length summary = Z.to_nat (horizon_years * 12).
Proof.
  intros Hlen Hcols. unfold summarize. cbn [bind result_monad ret].
  destruct (for_each_total _ _ np_median results) as [median [-> Hmd]].
  { intros [| x t] Hin; [destruct (Hcols _ Hin eq_refl) |].
    unfold np_median. destruct (_ =? 1)%Z; eexists; reflexivity. }
  destruct (for_each_total _ _ (fun col => np_percentile col 5) results) as [lower [-> Hlo]].
  { intros [| x t] Hin; [destruct (Hcols _ Hin eq_refl) | eexists; reflexivity]. }
  destruct (for_each_total _ _ (fun col => np_percentile col 95) results) as [upper [-> Hup]].
  { intros [| x t] Hin; [destruct (Hcols _ Hin eq_refl) | eexists; reflexivity]. }
  eexists. split; [reflexivity |].
  apply summary_frame_length; try congruence.
  rewrite np_arange_length. f_equal. lia.
Qed.

(** For parameters in the ranges of the data model (at least one
    simulation, a horizon that is not negative, an average revenue that is
    not negative, twelve seasonality factors unless the horizon is 0) and any
    realization of the draws, [monte_carlo_cash_flow] returns a summary with
    one row per month. *)
Lemma monte_carlo_cash_flow_total z costs j a s g h sims st :
  (0 < sims)%Z -> (0 <= h)%Z -> 0 <= a ->
  h = 0%Z \/ (12 <= length s)%nat ->
  exists summary st',
    monte_carlo_cash_flow z costs j a s g h sims st = Ok (summary, st') /\
    length summary = Z.to_nat (h * 12).
Proof.
  intros Hsims Hh Ha Hs.
  destruct (simulate_profits_total z costs j a s g h sims st) as [results [st' Hrun]];
    try assumption; [lia |].
  pose proof (simulate_profits_inv _ _ _ _ _ _ _ _ _ _ _ Hrun) as [_ [_ Hafter]].
  destruct Hafter as [Hlen [_ [Hcols _]]].
  destruct (summarize_total h results Hlen) as [summary [Hsum Hrows]].
  { intros col Hin Hempty. subst col.
    apply In_nth_error in Hin. destruct Hin as [i Hi].
    assert (Hlt : (i < Z.to_nat (h * 12))%nat).
    { rewrite <- Hlen. apply nth_error_Some. congruence. }
    rewrite (Hcols i Hlt) in Hi. injection Hi as Hi.
    apply (f_equal (@length Q)) in Hi. unfold profit_column in Hi.
    rewrite !length_map, length_seq in Hi. simpl in Hi. lia. }
  exists summary, st'. split; [| exact Hrows].
  unfold monte_carlo_cash_flow. cbn [bind Sim_monad]. rewrite Hrun.
  unfold lift. rewrite Hsum. reflexivity.
Qed.

(** * Further properties of the two functions *)

(** ** Growth from one year to the next *)





(** ** Flat seasonality and no growth *)






(** ** The first 24 rows *)

Lemma filter_prefix A (p : A -> bool) (l : list A) (n : nat) :
  (forall k x, nth_error l k = Some x -> p x = (k <? n)%nat) ->
  filter p l = firstn n l.
Proof.
  revert n. induction l as [| a l IH]; intros n H.
  - destruct n; reflexivity.
  - simpl. rewrite (H O a eq_refl). destruct n as [| n]; simpl.
    + apply (IH O). intros k x Hk. rewrite (H (S k) x Hk). reflexivity.
    + f_equal. apply IH. intros k x Hk. rewrite (H (S k) x Hk). reflexivity.
Qed.

(** X3: the 24 rows that [df.head(24)] shows are exactly the rows of the first
    two years of the ledger. *)
Theorem head_24_is_first_two_years
    (monthly_costs jobs_per_week avg_revenue_per_job : Q)
    (seasonality_factors : list Q) (annual_growth_rate : Q)
    (horizon_years : Z) (ledger : list LedgerRow) :
  project_cash_flow monthly_costs jobs_per_week avg_revenue_per_job
                    seasonality_factors annual_growth_rate horizon_years
  = Ok ledger ->
  head 24 ledger = filter (fun row => (Year row <=? 2)%Z) ledger.
Proof.
  intros Hrun. apply project_cash_flow_inv in Hrun. subst ledger.
  unfold head. symmetry. apply filter_prefix.
  intros k row Hrow. apply ledger_of_row in Hrow. destruct Hrow as [_ ->].
  cbn [Year]. rewrite year_index_nat.
  pose proof (Nat.div_mod_eq k 12) as Hdiv.
  pose proof (Nat.mod_upper_bound k 12 ltac:(lia)) as Hmod.
  destruct (Nat.ltb_spec k 24) as [Hlt | Hge].
  - apply Z.leb_le. lia.
  - apply Z.leb_gt. lia.
Qed.

Lemma head_24_is_first_two_years_witness :
  exists ledger,
    project_cash_flow 500 10 180 (repeat 1 12) 0.07 3 = Ok ledger /\
    head 24 ledger = filter (fun row => (Year row <=? 2)%Z) ledger.
Proof.
  eexists. split; [vm_compute; reflexivity |].
  apply (head_24_is_first_two_years 500 10 180 (repeat 1 12) 0.07 3).
  vm_compute; reflexivity.
Defined.

(** ** Arguments the functions do not validate *)

(** X4: a negative horizon makes the projector return the empty ledger, whatever
    the seasonality factors, while the simulator fails with a ValueError:
    [np.zeros] rejects the negative number of columns. *)
Theorem negative_horizon
    (z : Realization)
    (monthly_costs jobs_per_week avg_revenue_per_job : Q)
    (seasonality_factors : list Q) (annual_growth_rate : Q)
    (horizon_years simulations : Z) (st : RandomState) :
  (horizon_years < 0)%Z ->
  project_cash_flow monthly_costs jobs_per_week avg_revenue_per_job
                    seasonality_factors annual_growth_rate horizon_years
  = Ok [] /\
  monte_carlo_cash_flow z monthly_costs jobs_per_week avg_revenue_per_job
                        seasonality_factors annual_growth_rate
                        horizon_years simulations st
  = Raise ValueError.
Proof.
  intros Hneg. split.
  - rewrite project_cash_flow_total by (left; lia).
    unfold ledger_of, profits_upto, range.
    replace (Z.to_nat (horizon_years * 12)) with O by lia. reflexivity.
  - unfold monte_carlo_cash_flow, simulate_profits. cbn [bind Sim_monad].
    unfold lift, np_zeros.
    destruct (Z.ltb_spec simulations 0); [reflexivity |].
    destruct (Z.ltb_spec (horizon_years * 12) 0); [reflexivity | lia].
Qed.

Lemma negative_horizon_witness :
  project_cash_flow 500 10 180 [1; 1] 0.07 (-1) = Ok [] /\
  monte_carlo_cash_flow example_draws 500 10 180 [1; 1] 0.07 (-1) 5 fresh
  = Raise ValueError.
Proof.
  apply (negative_horizon example_draws 500 10 180 [1; 1] 0.07 (-1) 5 fresh). lia.
Defined.



(** ** The shape of the summary *)

Lemma np_arange_nth_error (a b : Z) (k : nat) (x : Z) :
  nth_error (np_arange a b) k = Some x -> x = (a + Z.of_nat k)%Z.
Proof.
  unfold np_arange. rewrite nth_error_map. intros H.
  destruct (nth_error (range (b - a)) k) as [i |] eqn:Hi; [| discriminate].
  assert (Hk : (k < Z.to_nat (b - a))%nat).
  { rewrite <- range_length. apply nth_error_Some. congruence. }
  rewrite range_nth_error in Hi by exact Hk.
  injection Hi as <-. injection H as <-. reflexivity.
Qed.

Lemma summarize_length (horizon_years : Z) (results : Matrix) (summary : list SummaryRow) :
  length results = Z.to_nat (horizon_years * 12) ->
  summarize horizon_years results = Ok summary ->
  length summary = Z.to_nat (horizon_years * 12).
Proof.
  intros Hlen. unfold summarize. cbn [bind result_monad ret].
  destruct (for_each results np_median) as [median |] eqn:Hmd; [| discriminate].
  destruct (for_each results (fun col => np_percentile col 5)) as [lower |] eqn:Hlo;
    [| discriminate].
  destruct (for_each results (fun col => np_percentile col 95)) as [upper |] eqn:Hup;
    [| discriminate].
  intros Heq. injection Heq as <-.
  apply for_each_inv, Forall2_length in Hmd, Hlo, Hup.
  apply summary_frame_length; try congruence.
  rewrite np_arange_length. f_equal. lia.
Qed.

(** X6: the summary returned by [monte_carlo_cash_flow] has one row per month of
    the horizon, and the row at 0-based index [k] is labelled Month [k + 1],
    like the row of the ledger at that index. *)
Theorem summary_shape
    (z : Realization)
    (monthly_costs jobs_per_week avg_revenue_per_job : Q)
    (seasonality_factors : list Q) (annual_growth_rate : Q)
    (horizon_years simulations : Z)
    (st st' : RandomState) (summary : list SummaryRow) :
  monte_carlo_cash_flow z monthly_costs jobs_per_week avg_revenue_per_job
                        seasonality_factors annual_growth_rate
                        horizon_years simulations st
  = Ok (summary, st') ->
  Z.of_nat (length summary) = (12 * horizon_years)%Z /\
  (forall k row, nth_error summary k = Some row ->
     Summary_Month row = (Z.of_nat k + 1)%Z).
Proof.
  intros Hrun. apply monte_carlo_cash_flow_inv in Hrun.
  destruct Hrun as [results [Hsim Hsum]].
  apply simulate_profits_inv in Hsim. destruct Hsim as [_ [Hmonths [Hlen _]]].
  split.
  - rewrite (summarize_length _ _ _ Hlen Hsum). lia.
  - intros k row Hrow.
    destruct (summarize_inv _ _ _ _ _ Hsum Hrow) as [_ [_ [_ [_ [_ Hmonth]]]]].
    apply np_arange_nth_error in Hmonth. lia.
Qed.

Lemma summary_shape_witness :
  exists summary st',
    monte_carlo_cash_flow example_draws 500 10 180 (repeat 1 12) 0.07 2 3 fresh
    = Ok (summary, st') /\
    Z.of_nat (length summary) = (12 * 2)%Z /\
    (forall k row, nth_error summary k = Some row ->
       Summary_Month row = (Z.of_nat k + 1)%Z).
Proof.
  eexists. eexists. split; [vm_compute; reflexivity |].
  eapply (summary_shape example_draws 500 10 180 (repeat 1 12) 0.07 2 3 fresh).
  vm_compute; reflexivity.
Defined.

(** ** The band around the deterministic profit *)





(** ** When the simulator succeeds *)



(** * The Streamlit page *)

Lemma page_inv (s : Session) (z : Realization) (st st' : RandomState) (p : Page) :
  page s z st = Ok (p, st') ->
  page_startup_costs p = sidebar_startup_costs s /\
  page_monthly_costs p = sidebar_monthly_costs s /\
  sidebar_projection s = Ok (page_df p) /\
  page_table p = head 24 (page_df p) /\
  (if checkbox s "Enable Monte-Carlo Forecasting"
   then exists summary,
       sidebar_simulation s z st = Ok (summary, st') /\
       page_summary p = Some summary /\
       page_summary_table p = Some (head 24 summary)
   else page_summary p = None /\ page_summary_table p = None /\ st' = st).
Proof.
  unfold page. cbv zeta. cbn [bind Sim_monad]. unfold lift.
  fold (sidebar_startup_costs s). fold (sidebar_monthly_costs s).
  fold (sidebar_seasonality_factors s). fold (sidebar_projection s).
  fold (sidebar_simulation s z).
  destruct (sidebar_projection s) as [df |]; [| discriminate].
  destruct (checkbox s "Enable Monte-Carlo Forecasting").
  - cbn [bind Sim_monad ret].
    destruct (sidebar_simulation s z st) as [[summary st1] |] eqn:Hsim; [| discriminate].
    intros Heq. injection Heq as <- <-. cbn.
    repeat split. exists summary. repeat split. 
  - cbn [ret Sim_monad]. intros Heq. injection Heq as <- <-. cbn. repeat split.
Qed.

Lemma within_bounds_int (s : Session) (w : IntWidget) :
  within_bounds s -> In w int_widgets ->
  (int_min w <= read_int s w <= int_max w)%Z.
Proof. intros [H _] Hin. rewrite Forall_forall in H. apply H, Hin. Qed.

Lemma within_bounds_float (s : Session) (w : FloatWidget) :
  within_bounds s -> In w float_widgets ->
  float_min w <= read_float s w <= float_max w.
Proof. intros [_ H] Hin. rewrite Forall_forall in H. apply (H w Hin). Qed.

Lemma sidebar_seasonality_length (s : Session) :
  length (sidebar_seasonality_factors s) = 12%nat.
Proof. reflexivity. Qed.

Lemma sidebar_costs_in_range (s : Session) :
  within_bounds s ->
  (500 <= sidebar_startup_costs s <= 20000)%Z /\
  (0 <= sidebar_monthly_costs s <= 9000)%Z.
Proof.
  intros H. unfold sidebar_startup_costs, sidebar_monthly_costs.
  pose proof (within_bounds_int s equipment_input H ltac:(simpl; tauto)).
  pose proof (within_bounds_int s marketing_startup_input H ltac:(simpl; tauto)).
  pose proof (within_bounds_int s legal_input H ltac:(simpl; tauto)).
  pose proof (within_bounds_int s misc_input H ltac:(simpl; tauto)).
  pose proof (within_bounds_int s fuel_input H ltac:(simpl; tauto)).
  pose proof (within_bounds_int s chemicals_input H ltac:(simpl; tauto)).
  pose proof (within_bounds_int s insurance_input H ltac:(simpl; tauto)).
  pose proof (within_bounds_int s marketing_monthly_input H ltac:(simpl; tauto)).
  pose proof (within_bounds_int s software_input H ltac:(simpl; tauto)).
  pose proof (within_bounds_int s maintenance_input H ltac:(simpl; tauto)).
  simpl in *. lia.
Qed.

Lemma untouched_within_bounds : within_bounds untouched.
Proof.
  split.
  - repeat constructor; vm_compute; discriminate.
  - repeat constructor; vm_compute; discriminate.
Qed.

Lemma example_session_within_bounds : within_bounds example_session.
Proof.
  split.
  - repeat constructor; vm_compute; discriminate.
  - repeat constructor; vm_compute; discriminate.
Qed.

Lemma page_unticked (s : Session) (z : Realization) (st : RandomState)
    (df : list LedgerRow) :
  checkbox s "Enable Monte-Carlo Forecasting" = false ->
  sidebar_projection s = Ok df ->
  page s z st
  = Ok (mkPage (sidebar_startup_costs s) (sidebar_monthly_costs s)
               df (head 24 df) None None, st).
Proof.
  intros Hbox Hdf. unfold page. cbv zeta. cbn [bind Sim_monad]. unfold lift.
  fold (sidebar_monthly_costs s). fold (sidebar_seasonality_factors s).
  fold (sidebar_projection s). rewrite Hdf, Hbox. reflexivity.
Qed.

Lemma page_ticked (s : Session) (z : Realization) (st st' : RandomState)
    (df : list LedgerRow) (summary : list SummaryRow) :
  checkbox s "Enable Monte-Carlo Forecasting" = true ->
  sidebar_projection s = Ok df ->
  sidebar_simulation s z st = Ok (summary, st') ->
  page s z st
  = Ok (mkPage (sidebar_startup_costs s) (sidebar_monthly_costs s)
               df (head 24 df) (Some summary) (Some (head 24 summary)), st').
Proof.
  intros Hbox Hdf Hsim. unfold page. cbv zeta. cbn [bind Sim_monad]. unfold lift.
  fold (sidebar_monthly_costs s). fold (sidebar_seasonality_factors s).
  fold (sidebar_projection s). fold (sidebar_simulation s z).
  rewrite Hdf, Hbox. cbn [bind Sim_monad]. rewrite Hsim. reflexivity.
Qed.

(** X9: whatever the user enters within the bounds of the widgets, the startup
    costs shown lie between 500 and 20000 and the monthly operating costs
    handed to the projector between 0 and 9000. *)
Theorem page_costs_in_range
    (s : Session) (z : Realization) (st st' : RandomState) (p : Page) :
  within_bounds s ->
  page s z st = Ok (p, st') ->
  (500 <= page_startup_costs p <= 20000)%Z /\
  (0 <= page_monthly_costs p <= 9000)%Z.
Proof.
  intros Hs Hrun. apply page_inv in Hrun. destruct Hrun as [-> [-> _]].
  apply sidebar_costs_in_range, Hs.
Qed.

Lemma page_costs_in_range_witness :
  exists p st',
    page untouched example_draws fresh = Ok (p, st') /\
    (500 <= page_startup_costs p <= 20000)%Z /\
    (0 <= page_monthly_costs p <= 9000)%Z.
Proof.
  eexists. eexists. split; [vm_compute; reflexivity |].
  eapply (page_costs_in_range untouched example_draws fresh).
  - apply untouched_within_bounds.
  - vm_compute; reflexivity.
Defined.

(** X10: whatever the user enters within the bounds of the widgets, and whatever
    the random draws, the script runs to its end: the projector returns a
    ledger of 12 rows per year of the horizon (12 to 120 rows), of which the
    first 24 are shown (12 when the horizon is one year); with the box ticked
    the simulator returns a summary with as many rows as the ledger, and
    without it the random generator is not used. *)
Theorem page_always_runs
    (s : Session) (z : Realization) (st : RandomState) :
  within_bounds s ->
  exists p st',
    page s z st = Ok (p, st') /\
    Z.of_nat (length (page_df p)) = (12 * read_int s horizon_years_slider)%Z /\
    (12 <= length (page_df p) <= 120)%nat /\
    length (page_table p) = Nat.min 24 (length (page_df p)) /\
    match page_summary p with
    | Some summary =>
        checkbox s "Enable Monte-Carlo Forecasting" = true /\
        length summary = length (page_df p)
    | None =>
        checkbox s "Enable Monte-Carlo Forecasting" = false /\ st' = st
    end.
Proof.
  intros Hs.
  pose proof (within_bounds_int s horizon_years_slider Hs ltac:(simpl; tauto)) as Hh.
  pose proof (within_bounds_int s avg_revenue_input Hs ltac:(simpl; tauto)) as Havg.
  cbn [int_min int_max horizon_years_slider avg_revenue_input] in Hh, Havg.
  assert (Hdf : sidebar_projection s
                = Ok (ledger_of (inject_Z (sidebar_monthly_costs s))
                                (inject_Z (read_int s jobs_per_week_input))
                                (inject_Z (read_int s avg_revenue_input))
                                (sidebar_seasonality_factors s)
                                (read_float s annual_growth_slider)
                                (read_int s horizon_years_slider))).
  { apply project_cash_flow_total. right. rewrite sidebar_seasonality_length. lia. }
  set (df := ledger_of _ _ _ _ _ _) in Hdf.
  assert (Hrows : length df = Z.to_nat (read_int s horizon_years_slider * 12)).
  { apply ledger_of_length. }
  destruct (checkbox s "Enable Monte-Carlo Forecasting") eqn:Hbox.
  - destruct (monte_carlo_cash_flow_total z
                (inject_Z (sidebar_monthly_costs s))
                (inject_Z (read_int s jobs_per_week_input))
                (inject_Z (read_int s avg_revenue_input))
                (sidebar_seasonality_factors s)
                (read_float s annual_growth_slider)
                (read_int s horizon_years_slider)
                default_simulations st) as [summary [st' [Hsim Hlen]]].
    + reflexivity.
    + lia.
    + change 0 with (inject_Z 0). rewrite <- Zle_Qle. lia.
    + right. rewrite sidebar_seasonality_length. lia.
    + eexists. exists st'.
      split; [apply (page_ticked s z st st' df summary Hbox Hdf Hsim) |].
      cbn [page_df page_table page_summary]. unfold head.
      rewrite length_firstn, Hrows, Hlen. repeat split; lia.
  - eexists. exists st.
    split; [apply (page_unticked s z st df Hbox Hdf) |].
    cbn [page_df page_table page_summary]. unfold head.
    rewrite length_firstn, Hrows. repeat split; lia.
Qed.

Lemma page_always_runs_witness :
  exists p st',
    page example_session example_bounded_draws fresh = Ok (p, st') /\
    Z.of_nat (length (page_df p))
    = (12 * read_int example_session horizon_years_slider)%Z /\
    (12 <= length (page_df p) <= 120)%nat /\
    length (page_table p) = Nat.min 24 (length (page_df p)) /\
    match page_summary p with
    | Some summary =>
        checkbox example_session "Enable Monte-Carlo Forecasting" = true /\
        length summary = length (page_df p)
    | None =>
        checkbox example_session "Enable Monte-Carlo Forecasting" = false /\
        st' = fresh
    end.
Proof.
  apply (page_always_runs example_session example_bounded_draws fresh).
  split; repeat constructor; vm_compute; discriminate.
Defined.

Lemma product_at_least (j a f G : Q) :
  1 <= j -> 50 <= a -> 1 # 2 <= f -> 1 <= G -> 100 <= j * 4 * a * f * G.
Proof.
  intros Hj Ha Hf HG.
  assert (H1 : 0 <= (j - 1) * a) by (apply Qmult_le_0_compat; lra).
  assert (H2 : 200 <= j * 4 * a) by lra.
  assert (H3 : 0 <= (j * 4 * a - 200) * f) by (apply Qmult_le_0_compat; lra).
  assert (H4 : 100 <= j * 4 * a * f) by lra.
  assert (H5 : 0 <= (j * 4 * a * f - 100) * G) by (apply Qmult_le_0_compat; lra).
  lra.
Qed.

(** X11: whatever the user enters within the bounds of the widgets, every month
    of the ledger the page shows has a revenue of at least 100: at least one
    job a week at 50 or more, a seasonality factor of 0.5 or more and a
    growth rate that is not negative. *)
Theorem page_revenue_at_least_100
    (s : Session) (z : Realization) (st st' : RandomState) (p : Page) :
  within_bounds s ->
  page s z st = Ok (p, st') ->
  Forall (fun row => 100 <= Revenue row) (page_df p).
Proof.
  intros Hs Hrun. apply page_inv in Hrun. destruct Hrun as [_ [_ [Hdf _]]].
  unfold sidebar_projection in Hdf. apply project_cash_flow_inv in Hdf.
  rewrite Hdf. apply Forall_forall. intros row Hin.
  apply In_nth_error in Hin. destruct Hin as [k Hk].
  apply ledger_of_row in Hk. destruct Hk as [_ ->]. cbn [Revenue].
  unfold revenue_at.
  pose proof (within_bounds_int s jobs_per_week_input Hs ltac:(simpl; tauto)) as Hj.
  pose proof (within_bounds_int s avg_revenue_input Hs ltac:(simpl; tauto)) as Ha.
  pose proof (within_bounds_float s annual_growth_slider Hs ltac:(simpl; tauto)) as Hg.
  cbn [int_min int_max float_min float_max jobs_per_week_input avg_revenue_input
       annual_growth_slider] in Hj, Ha, Hg.
  apply product_at_least.
  - change 1 with (inject_Z 1). rewrite <- Zle_Qle. lia.
  - change 50 with (inject_Z 50). rewrite <- Zle_Qle. lia.
  - pose proof (month_index_bounds (Z.of_nat k)) as Hb.
    assert (Hin : In (nth (Z.to_nat (Z.of_nat k mod 12)) (sidebar_seasonality_factors s) 0)
                     (sidebar_seasonality_factors s)).
    { apply nth_In. rewrite sidebar_seasonality_length. lia. }
    unfold sidebar_seasonality_factors in Hin at 2.
    apply in_map_iff in Hin. destruct Hin as [m [<- Hm]].
    assert (Hw : In (month_slider m) float_widgets).
    { right. apply in_map. exact Hm. }
    pose proof (within_bounds_float s (month_slider m) Hs Hw) as Hf.
    cbn [float_min float_max month_slider] in Hf. destruct Hf as [Hf _].
    lra.
  - apply Qpower_1_le; [lra |]. apply Z.div_pos; lia.
Qed.

Lemma page_revenue_at_least_100_witness :
  exists p st',
    page untouched example_draws fresh = Ok (p, st') /\
    Forall (fun row => 100 <= Revenue row) (page_df p).
Proof.
  eexists. eexists. split; [vm_compute; reflexivity |].
  eapply (page_revenue_at_least_100 untouched example_draws fresh).
  - apply untouched_within_bounds.
  - vm_compute; reflexivity.
Defined.
